(** * FGAme.physics.obj_aabb: the axis-aligned rigid body [AABB]

    A shallow embedding of [src/FGAme/physics/obj_aabb.py].

    - Python floats are IEEE-754 binary64 numbers: they are embedded as Rocq's
      primitive [float]s, whose operations are the same binary64 operations
      (round to nearest, ties to even).
    - A numeric argument is a Python [int] or a Python [float] ([value]);
      [float(value)] is [py_float].
    - A raised exception is the [Raise] outcome of [result]; a method of the
      class is a function from the receiver to either an exception or its
      return value together with the receiver after the call ([method]).
      Every setter evaluates [float(value)] before it assigns anything, so a
      setter that raises has changed nothing.  The methods assign to the
      receiver in place and nothing is rolled back: a sequence of statements
      that raises part-way keeps what its earlier statements assigned.
      [perform] runs such a sequence and returns the body it leaves together
      with the exception, if any; the [Raise] outcome of a single call
      carries the exception alone.
    - [aabb_bbox] and the base class [LinearRigidBody] live in other modules
      of the package; what this class uses of them is modelled from the
      specification and marked as such. *)

From Stdlib Require Import ZArith Floats List Bool Lia.
Import ListNotations.

Set Warnings "-inexact-float".

(** ** Exceptions and outcomes *)

Inductive exn : Type :=
| OverflowError
| ConstructionAmbiguityError
| InvalidGeometryError.

Inductive result (A : Type) : Type :=
| Ok (a : A)
| Raise (e : exn).

Arguments Ok {A} a.
Arguments Raise {A} e.

Class Monad (M : Type -> Type) : Type :=
  { ret : forall {A}, A -> M A;
    bind : forall {A B}, M A -> (A -> M B) -> M B }.

Declare Scope monad_scope.
Delimit Scope monad_scope with monad.
Notation "x <- c ;; k" := (bind c (fun x => k))
  (at level 61, c at next level, right associativity) : monad_scope.
Notation "' p <- c ;; k" := (bind c (fun x => match x with p => k end))
  (at level 61, p pattern, c at next level, right associativity) : monad_scope.
Notation "c ;; k" := (bind c (fun _ => k))
  (at level 61, right associativity) : monad_scope.
Open Scope monad_scope.

#[export] Instance Monad_result : Monad result :=
  { ret := fun A a => Ok a;
    bind := fun A B c k => match c with Ok a => k a | Raise e => Raise e end }.

(** ** Python numbers *)

Inductive value : Type :=
| VInt (z : Z)
| VFloat (f : float).

(** The binary64 number nearest to an integer (ties to even); [infinity]
    (of the integer's sign) when that number would not be finite. *)
Definition Z2float (z : Z) : float :=
  SF2Prim (binary_normalize prec emax z 0 false).

(** [float(value)]: a float is returned as it is, an int is rounded to the
    nearest float, and an int too large for a float raises OverflowError. *)
Definition py_float (v : value) : result float :=
  match v with
  | VFloat f => Ok f
  | VInt z =>
      let f := Z2float z in
      if is_infinity f then Raise OverflowError else Ok f
  end.

(** ** The state of a body *)

Module Vector.
Record t : Type := mk { x : float; y : float }.
Definition set_x (v : float) (u : t) : t := mk v (y u).
Definition set_y (v : float) (u : t) : t := mk (x u) v.
End Vector.

(** The attributes of an [AABB] instance: the four extents and the position
    vector that the setters of this class assign, and the velocity, mass and
    inertia kept by the base class. *)
Record AABB : Type := mkAABB
  { _xmin : float;
    _xmax : float;
    _ymin : float;
    _ymax : float;
    _pos : Vector.t;
    vel : Vector.t;
    mass : float;
    inertia : float }.

Definition set__xmin (v : float) (self : AABB) : AABB :=
  mkAABB v (_xmax self) (_ymin self) (_ymax self) (_pos self) (vel self)
         (mass self) (inertia self).
Definition set__xmax (v : float) (self : AABB) : AABB :=
  mkAABB (_xmin self) v (_ymin self) (_ymax self) (_pos self) (vel self)
         (mass self) (inertia self).
Definition set__ymin (v : float) (self : AABB) : AABB :=
  mkAABB (_xmin self) (_xmax self) v (_ymax self) (_pos self) (vel self)
         (mass self) (inertia self).
Definition set__ymax (v : float) (self : AABB) : AABB :=
  mkAABB (_xmin self) (_xmax self) (_ymin self) v (_pos self) (vel self)
         (mass self) (inertia self).
Definition set__pos (p : Vector.t) (self : AABB) : AABB :=
  mkAABB (_xmin self) (_xmax self) (_ymin self) (_ymax self) p (vel self)
         (mass self) (inertia self).
Definition set_mass (m : float) (self : AABB) : AABB :=
  mkAABB (_xmin self) (_xmax self) (_ymin self) (_ymax self) (_pos self)
         (vel self) m (inertia self).

(** ** Methods *)

(** The outcome of one call: what it returns with the receiver after the
    call, or the exception it raises.  The body that a raising sequence of
    calls leaves behind is kept by [perform], further down. *)
Definition method (A : Type) : Type := AABB -> result (A * AABB).

#[export] Instance Monad_method : Monad method :=
  { ret := fun A a self => Ok (a, self);
    bind := fun A B c k self =>
      match c self with
      | Ok (a, self') => k a self'
      | Raise e => Raise e
      end }.

(** Reading an attribute, assigning one, and evaluating an expression that
    may raise. *)
Definition attr {A : Type} (f : AABB -> A) : method A :=
  fun self => Ok (f self, self).
Definition assign (upd : AABB -> AABB) : method unit :=
  fun self => Ok (tt, upd self).
Definition eval {A : Type} (r : result A) : method A :=
  fun self => match r with Ok a => Ok (a, self) | Raise e => Raise e end.

Definition run {A : Type} (m : method A) (self : AABB) : result (A * AABB) :=
  m self.

Section Methods.
Local Open Scope float_scope.

(** [xmin] property, lines 76-83. *)
Definition xmin : method float := attr _xmin.

Definition xmin_setter (value : value) : method unit :=
  v <- eval (py_float value) ;;
  assign (set__xmin v) ;;
  hi <- attr _xmax ;;
  lo <- attr _xmin ;;
  p <- attr _pos ;;
  assign (set__pos (Vector.set_x ((hi - lo) / 2) p)).

(** [xmax] property, lines 85-92. *)
Definition xmax : method float := attr _xmax.

Definition xmax_setter (value : value) : method unit :=
  v <- eval (py_float value) ;;
  assign (set__xmax v) ;;
  hi <- attr _xmax ;;
  lo <- attr _xmin ;;
  p <- attr _pos ;;
  assign (set__pos (Vector.set_x ((hi - lo) / 2) p)).

(** [ymin] property, lines 94-101. *)
Definition ymin : method float := attr _ymin.

Definition ymin_setter (value : value) : method unit :=
  v <- eval (py_float value) ;;
  assign (set__ymin v) ;;
  hi <- attr _ymax ;;
  lo <- attr _ymin ;;
  p <- attr _pos ;;
  assign (set__pos (Vector.set_y ((hi - lo) / 2) p)).

(** [ymax] property, lines 103-110. *)
Definition ymax : method float := attr _ymax.

Definition ymax_setter (value : value) : method unit :=
  v <- eval (py_float value) ;;
  assign (set__ymax v) ;;
  hi <- attr _ymax ;;
  lo <- attr _ymin ;;
  p <- attr _pos ;;
  assign (set__pos (Vector.set_y ((hi - lo) / 2) p)).

(** [area], lines 113-114. *)
Definition area : method float :=
  hi_x <- attr _xmax ;; lo_x <- attr _xmin ;;
  hi_y <- attr _ymax ;; lo_y <- attr _ymin ;;
  ret ((hi_x - lo_x) * (hi_y - lo_y)).
End Methods.

(** ** Construction *)

Definition pair2 : Type := value * value.
Definition tuple4 : Type := value * value * value * value.
Definition extents : Type := float * float * float * float.

(** The arguments of [AABB(...)], named after the parameters of [__init__];
    [None] is an argument left out. *)
Record kwargs : Type := mkKwargs
  { kw_xmin : option value;
    kw_xmax : option value;
    kw_ymin : option value;
    kw_ymax : option value;
    kw_pos : option pair2;
    kw_vel : pair2;
    kw_mass : option value;
    kw_density : option value;
    kw_bbox : option tuple4;
    kw_shape : option pair2;
    kw_rect : option tuple4 }.

(** The defaults of the signature: everything [None], [vel=(0, 0)]. *)
Definition defaults : kwargs :=
  mkKwargs None None None None None (VInt 0, VInt 0) None None None None None.

Definition with_bbox (t : tuple4) (kw : kwargs) : kwargs :=
  mkKwargs (kw_xmin kw) (kw_xmax kw) (kw_ymin kw) (kw_ymax kw) (kw_pos kw)
           (kw_vel kw) (kw_mass kw) (kw_density kw) (Some t) (kw_shape kw)
           (kw_rect kw).
Definition with_rect (t : tuple4) (kw : kwargs) : kwargs :=
  mkKwargs (kw_xmin kw) (kw_xmax kw) (kw_ymin kw) (kw_ymax kw) (kw_pos kw)
           (kw_vel kw) (kw_mass kw) (kw_density kw) (kw_bbox kw) (kw_shape kw)
           (Some t).
Definition with_shape (t : pair2) (kw : kwargs) : kwargs :=
  mkKwargs (kw_xmin kw) (kw_xmax kw) (kw_ymin kw) (kw_ymax kw) (kw_pos kw)
           (kw_vel kw) (kw_mass kw) (kw_density kw) (kw_bbox kw) (Some t)
           (kw_rect kw).
Definition with_extents (a b c d : option value) (kw : kwargs) : kwargs :=
  mkKwargs a b c d (kw_pos kw) (kw_vel kw) (kw_mass kw) (kw_density kw)
           (kw_bbox kw) (kw_shape kw) (kw_rect kw).
Definition with_mass (m : option value) (kw : kwargs) : kwargs :=
  mkKwargs (kw_xmin kw) (kw_xmax kw) (kw_ymin kw) (kw_ymax kw) (kw_pos kw)
           (kw_vel kw) m (kw_density kw) (kw_bbox kw) (kw_shape kw)
           (kw_rect kw).
Definition with_density (d : option value) (kw : kwargs) : kwargs :=
  mkKwargs (kw_xmin kw) (kw_xmax kw) (kw_ymin kw) (kw_ymax kw) (kw_pos kw)
           (kw_vel kw) (kw_mass kw) d (kw_bbox kw) (kw_shape kw)
           (kw_rect kw).

Section Construction.
Local Open Scope float_scope.

Definition py_float2 (p : pair2) : result (float * float) :=
  let '(a, b) := p in
  a <- py_float a ;; b <- py_float b ;; ret (a, b).

Definition py_float4 (t : tuple4) : result extents :=
  let '(a, b, c, d) := t in
  a <- py_float a ;; b <- py_float b ;;
  c <- py_float c ;; d <- py_float d ;; ret (a, b, c, d).

(** Modelled from the spec: the first stage of the resolver [aabb_bbox], the
    box given by one of the three tuple forms, in the precedence [bbox]
    (passed through), [rect=(x,y,width,height)] ([xmin=x, xmax=x+width,
    ymin=y, ymax=y+height]), [shape=(width,height)] (a box of that width and
    height centred at [pos], the origin by default); [None] when none of
    them is supplied. *)
Definition resolve_form (bbox rect : option tuple4) (shape pos : option pair2)
  : result (option extents) :=
  match bbox, rect, shape with
  | Some t, _, _ =>
      e <- py_float4 t ;; ret (Some e)
  | None, Some t, _ =>
      '(x, y, width, height) <- py_float4 t ;;
      ret (Some (x, x + width, y, y + height))
  | None, None, Some s =>
      '(cx, cy) <- match pos with
                   | Some p => py_float2 p
                   | None => ret (0, 0)
                   end ;;
      '(width, height) <- py_float2 s ;;
      ret (Some (cx - width / 2, cx + width / 2,
                 cy - height / 2, cy + height / 2))
  | None, None, None => ret None
  end.

(** Modelled from the spec: the second stage of the resolver [aabb_bbox]; an
    individual extent passes through, a missing one is taken from the
    resolved form, when there is one. *)
Definition substitute (given : option value) (resolved : option float)
  : option value :=
  match given with
  | Some v => Some v
  | None => option_map VFloat resolved
  end.

(** Modelled from the spec: the test of the resolver [aabb_bbox] for
    inverted extents, [xmin > xmax] or [ymin > ymax]. *)
Definition inverted (e : extents) : bool :=
  let '(lo_x, hi_x, lo_y, hi_y) := e in
  (hi_x <? lo_x) || (hi_y <? lo_y).

(** Modelled from the spec: [aabb_bbox] of [FGAme.mathutils], the
    bounding-box resolver that [__init__] calls, is not among the sources.
    It accepts the forms [bbox], [rect] and [shape] (with [pos]) in that
    precedence, and individual extents, which pass through and have the
    missing ones substituted by the values resolved from the form.  The
    result is four floats.  It fails with ConstructionAmbiguityError when
    the arguments do not determine all four extents, and with
    InvalidGeometryError when the resolved extents are inverted. *)
Definition aabb_bbox (bbox rect : option tuple4) (shape pos : option pair2)
           (xmin xmax ymin ymax : option value) : result extents :=
  form <- resolve_form bbox rect shape pos ;;
  let by_form (proj : extents -> float) := option_map proj form in
  match substitute xmin (by_form (fun '(a, _, _, _) => a)),
        substitute xmax (by_form (fun '(_, b, _, _) => b)),
        substitute ymin (by_form (fun '(_, _, c, _) => c)),
        substitute ymax (by_form (fun '(_, _, _, d) => d)) with
  | Some a, Some b, Some c, Some d =>
      e <- py_float4 (a, b, c, d) ;;
      if inverted e then Raise InvalidGeometryError else ret e
  | _, _, _, _ => Raise ConstructionAmbiguityError
  end.

(** Modelled from the spec: [LinearRigidBody.__init__] of
    [FGAme.physics.obj_all], the base-class constructor, is not among the
    sources.  It stores the extents, the position and the velocity, sets
    the inertia to positive infinity, and resolves the mass: an explicit
    [mass] is taken as it is, otherwise the mass is [area() * density],
    with [density] defaulting to 1.0. *)
Definition LinearRigidBody_init (xmin xmax ymin ymax : float)
           (pos : float * float) (vel : pair2)
           (mass density : option value) : result AABB :=
  '(vel_x, vel_y) <- py_float2 vel ;;
  let self := mkAABB xmin xmax ymin ymax
                     (Vector.mk (fst pos) (snd pos))
                     (Vector.mk vel_x vel_y) 0 infinity in
  match mass with
  | Some m =>
      m <- py_float m ;;
      ret (set_mass m self)
  | None =>
      d <- match density with
           | Some d => py_float d
           | None => ret 1
           end ;;
      '(a, self) <- area self ;;
      ret (set_mass (a * d) self)
  end.

(** [AABB.__init__], lines 54-67. *)
Definition AABB_init (kw : kwargs) : result AABB :=
  '(xmin, xmax, ymin, ymax) <-
    aabb_bbox (kw_bbox kw) (kw_rect kw) (kw_shape kw) (kw_pos kw)
              (kw_xmin kw) (kw_xmax kw) (kw_ymin kw) (kw_ymax kw) ;;
  let pos := ((xmin + xmax) / 2, (ymin + ymax) / 2) in
  LinearRigidBody_init xmin xmax ymin ymax pos (kw_vel kw)
                       (kw_mass kw) (kw_density kw).

(** Modelled from the spec: the [bbox] accessor of the base class, which
    reads [(xmin, xmax, ymin, ymax)]. *)
Definition bbox : method extents :=
  a <- attr _xmin ;; b <- attr _xmax ;;
  c <- attr _ymin ;; d <- attr _ymax ;;
  ret (a, b, c, d).

(** [primitive], lines 121-122. *)
Definition primitive : method AABB :=
  '(a, b, c, d) <- bbox ;;
  eval (AABB_init (with_bbox (VFloat a, VFloat b, VFloat c, VFloat d) defaults)).
End Construction.

(** ** Extent writes *)

(** The four writable extent properties. *)
Inductive extent : Type := Xmin | Xmax | Ymin | Ymax.

Definition extent_eqb (f g : extent) : bool :=
  match f, g with
  | Xmin, Xmin | Xmax, Xmax | Ymin, Ymin | Ymax, Ymax => true
  | _, _ => false
  end.

(** Whether a property is one of the two horizontal extents. *)
Definition horizontal (f : extent) : bool :=
  match f with
  | Xmin | Xmax => true
  | Ymin | Ymax => false
  end.

(** The assignment [self.f = value] goes through the setter of [f]. *)
Definition write (f : extent) (value : value) : method unit :=
  match f with
  | Xmin => xmin_setter value
  | Xmax => xmax_setter value
  | Ymin => ymin_setter value
  | Ymax => ymax_setter value
  end.

(** A sequence of assignments, run in order. *)
Fixpoint writes (ws : list (extent * value)) : method unit :=
  match ws with
  | [] => ret tt
  | (f, v) :: ws' => write f v ;; writes ws'
  end.

Definition touches_x (ws : list (extent * value)) : bool :=
  existsb (fun w => horizontal (fst w)) ws.
Definition touches_y (ws : list (extent * value)) : bool :=
  existsb (fun w => negb (horizontal (fst w))) ws.

Section Observations.
Local Open Scope float_scope.

(** The attribute behind an extent property. *)
Definition stored (f : extent) (self : AABB) : float :=
  match f with
  | Xmin => _xmin self
  | Xmax => _xmax self
  | Ymin => _ymin self
  | Ymax => _ymax self
  end.

(** The position component on the axis of an extent, and on the other
    axis. *)
Definition pos_along (f : extent) (self : AABB) : float :=
  if horizontal f then Vector.x (_pos self) else Vector.y (_pos self).
Definition pos_across (f : extent) (self : AABB) : float :=
  if horizontal f then Vector.y (_pos self) else Vector.x (_pos self).

(** Half the width, or half the height: what the setters assign to the
    position. *)
Definition half_span (f : extent) (self : AABB) : float :=
  if horizontal f
  then (_xmax self - _xmin self) / 2
  else (_ymax self - _ymin self) / 2.

(** The midpoint of the box: what the constructor assigns to the
    position. *)
Definition midpoint (self : AABB) : Vector.t :=
  Vector.mk ((_xmin self + _xmax self) / 2) ((_ymin self + _ymax self) / 2).

(** Equality up to the tolerance 1e-9. *)
Definition close (a b : float) : bool := abs (a - b) <=? 1e-9.

(** The centre relation [position == ((xmax-xmin)/2, (ymax-ymin)/2)]. *)
Definition centred (self : AABB) : Prop :=
  Vector.x (_pos self) = (_xmax self - _xmin self) / 2
  /\ Vector.y (_pos self) = (_ymax self - _ymin self) / 2.

(** The extents of a body, as [bbox] reads them. *)
Definition box (self : AABB) : extents :=
  (_xmin self, _xmax self, _ymin self, _ymax self).
End Observations.

(** The numbers that [float] accepts: every float, and every int whose
    nearest float is finite. *)
Definition converts (v : value) : bool :=
  match v with
  | VFloat _ => true
  | VInt z => negb (is_infinity (Z2float z))
  end.

(** A spec-level float is negative when it is minus infinity or a finite
    non-zero number with the sign bit set: when it compares below zero. *)
Definition sf_negative (z : spec_float) : bool :=
  match z with
  | S754_infinity true | S754_finite true _ _ => true
  | _ => false
  end.

(** ** Bodies and arguments of the scenarios *)

Definition kw_shape_100_200 : kwargs :=
  with_shape (VInt 100, VInt 200) defaults.
Definition kw_rect_0_0_100_200 : kwargs :=
  with_rect (VInt 0, VInt 0, VInt 100, VInt 200) defaults.
Definition kw_bbox_0_100_0_200 : kwargs :=
  with_bbox (VInt 0, VInt 100, VInt 0, VInt 200) defaults.
Definition kw_extents_0_100_0_200 : kwargs :=
  with_extents (Some (VInt 0)) (Some (VInt 100)) (Some (VInt 0))
               (Some (VInt 200)) defaults.
Definition kw_only_x : kwargs :=
  with_extents (Some (VInt 0)) (Some (VInt 100)) None None defaults.

(** The body that [AABB(bbox=(0, 100, 0, 200))] builds. *)
Definition body_0_100_0_200 : AABB :=
  mkAABB 0 100 0 200 (Vector.mk 50 100) (Vector.mk 0 0) 20000 infinity.

(** That body after the write [xmin = 150], which leaves [xmin > xmax]. *)
Definition body_150_100_0_200 : AABB :=
  mkAABB 150 100 0 200 (Vector.mk (-25) 100) (Vector.mk 0 0) 20000 infinity.

(** The body that [AABB(shape=(100, 200))] builds. *)
Definition body_shape_100_200 : AABB :=
  mkAABB (-50) 50 (-100) 100 (Vector.mk 0 0) (Vector.mk 0 0) 20000 infinity.

(** ** Sequences of writes, extent by extent *)

(** The value that the last write to [f] in a sequence assigns, if the
    sequence writes [f] at all. *)
Fixpoint last_write (f : extent) (ws : list (extent * value)) : option value :=
  match ws with
  | [] => None
  | (g, v) :: ws' =>
      match last_write f ws' with
      | Some w => Some w
      | None => if extent_eqb g f then Some v else None
      end
  end.

(** The body with [xmin] and [xmax] exchanged, and with [ymin] and [ymax]
    exchanged. *)
Definition mirror_x (self : AABB) : AABB :=
  mkAABB (_xmax self) (_xmin self) (_ymin self) (_ymax self) (_pos self)
         (vel self) (mass self) (inertia self).
Definition mirror_y (self : AABB) : AABB :=
  mkAABB (_xmin self) (_xmax self) (_ymax self) (_ymin self) (_pos self)
         (vel self) (mass self) (inertia self).

(** A spec-level float is positive when it is plus infinity or a finite
    non-zero number with the sign bit clear: when zero compares below it. *)
Definition sf_positive (z : spec_float) : bool :=
  match z with
  | S754_infinity false | S754_finite false _ _ => true
  | _ => false
  end.

(** ** [ROG_sqr] *)

Section Power.
Local Open Scope float_scope.

(** The [pow] of the C library, which the interpreter calls for [**] on
    floats: its value, and whether it reported a range error ([errno] set to
    [ERANGE]).  For the positive finite bases and the exponent 2 that reach
    it here the C standard leaves no other error. *)
Variable libm_pow : float -> float -> float * bool.

(** [v ** 2] for a float [v], as the interpreter's [float_pow] computes it
    when the exponent is the int 2: NaN stays NaN, an infinity gives plus
    infinity, a zero gives 0.0, and the magnitudes 1.0 give 1.0, all without
    the C library; any other base goes to [pow] by its magnitude.  A range
    error is taken from [errno], except that one reported with a result of
    zero (underflow) is dropped and an infinite result counts as one even
    when [errno] is clear; a range error raises OverflowError. *)
Definition float_pow_2 (v : float) : result float :=
  if is_nan v then Ok v
  else if is_infinity v then Ok (abs v)
  else if v =? 0 then Ok 0
  else
    let iv := if v <? 0 then - v else v in
    if iv =? 1 then Ok 1
    else
      let '(ix, erange) := libm_pow iv 2 in
      let erange :=
        if erange then negb (ix =? 0)
        else (ix =? infinity) || (ix =? neg_infinity) in
      if erange then Raise OverflowError else Ok ix.

(** [ROG_sqr], lines 116-119. *)
Definition ROG_sqr : method float :=
  hi_x <- attr _xmax ;; lo_x <- attr _xmin ;;
  let a := hi_x - lo_x in
  hi_y <- attr _ymax ;; lo_y <- attr _ymin ;;
  let b := hi_y - lo_y in
  a2 <- eval (float_pow_2 a) ;;
  b2 <- eval (float_pow_2 b) ;;
  ret ((a2 + b2) / 12).
End Power.

(** A C library whose [pow] squares by one correctly rounded multiplication
    and reports a range error exactly on overflow. *)
Definition pow_by_product (x y : float) : float * bool :=
  let r := (x * x)%float in (r, is_infinity r).

(** What a call returns or raises, without the receiver. *)
Definition returned {A : Type} (r : result (A * AABB)) : result A :=
  match r with
  | Ok (a, _) => Ok a
  | Raise e => Raise e
  end.

(** Reading [self.f] goes through the getter of [f]. *)
Definition read (f : extent) : method float :=
  match f with
  | Xmin => xmin
  | Xmax => xmax
  | Ymin => ymin
  | Ymax => ymax
  end.

(** Whether a spec-level float is NaN. *)
Definition sf_is_nan (z : spec_float) : bool :=
  match z with S754_nan => true | _ => false end.

(** ** Statements run one after the other *)

(** The statements [self.f = value] of a sequence, run in order on a body
    that they change in place: the body left behind, and the exception that
    stopped the sequence, if one did.  A setter converts its value (lines
    82, 91, 100, 109) before it assigns, so the write that raises leaves the
    body as the writes before it left it, and the writes after it are not
    run. *)
Fixpoint perform (ws : list (extent * value)) (self : AABB)
  : AABB * option exn :=
  match ws with
  | [] => (self, None)
  | (f, v) :: ws' =>
      match run (write f v) self with
      | Ok (_, self') => perform ws' self'
      | Raise e => (self, Some e)
      end
  end.

(** The body [(0, 100, 0, 200)] after the write [xmax = 150]. *)
Definition body_0_150_0_200 : AABB :=
  mkAABB 0 150 0 200 (Vector.mk 75 100) (Vector.mk 0 0) 20000 infinity.

(** ** Construction over any resolver *)

(** The type of [aabb_bbox]. *)
Definition resolver : Type :=
  option tuple4 -> option tuple4 -> option pair2 -> option pair2 ->
  option value -> option value -> option value -> option value ->
  result extents.

Section AnyResolver.
Local Open Scope float_scope.
Variable resolve : resolver.

(** [AABB.__init__], lines 54-67, with [resolve] in the place of
    [aabb_bbox]. *)
Definition AABB_init_with (kw : kwargs) : result AABB :=
  '(xmin, xmax, ymin, ymax) <-
    resolve (kw_bbox kw) (kw_rect kw) (kw_shape kw) (kw_pos kw)
            (kw_xmin kw) (kw_xmax kw) (kw_ymin kw) (kw_ymax kw) ;;
  let pos := ((xmin + xmax) / 2, (ymin + ymax) / 2) in
  LinearRigidBody_init xmin xmax ymin ymax pos (kw_vel kw)
                       (kw_mass kw) (kw_density kw).

(** [primitive], lines 121-122, with [resolve] in the place of
    [aabb_bbox]. *)
Definition primitive_with : method AABB :=
  '(a, b, c, d) <- bbox ;;
  eval (AABB_init_with
          (with_bbox (VFloat a, VFloat b, VFloat c, VFloat d) defaults)).

(** The resolver passes a box of floats given as [bbox=] through as it is,
    whatever the box. *)
Definition passes_bbox : Prop :=
  forall a b c d : float,
    resolve (Some (VFloat a, VFloat b, VFloat c, VFloat d)) None None None
            None None None None
    = Ok (a, b, c, d).
End AnyResolver.

(** A resolver that passes every box through: the two stages of the resolver
    above, without the test for inverted extents. *)
Definition aabb_bbox_untested : resolver :=
  fun bbox rect shape pos xmin xmax ymin ymax =>
    form <- resolve_form bbox rect shape pos ;;
    let by_form (proj : extents -> float) := option_map proj form in
    match substitute xmin (by_form (fun '(a, _, _, _) => a)),
          substitute xmax (by_form (fun '(_, b, _, _) => b)),
          substitute ymin (by_form (fun '(_, _, c, _) => c)),
          substitute ymax (by_form (fun '(_, _, _, d) => d)) with
    | Some a, Some b, Some c, Some d => py_float4 (a, b, c, d)
    | _, _, _, _ => Raise ConstructionAmbiguityError
    end.

(** * Facts about binary64 arithmetic *)

Module SF.
Local Open Scope Z_scope.

Lemma ltb_zero (z : spec_float) : SFltb z (S754_zero false) = sf_negative z.
Proof. destruct z as [s|s| |s m e]; try destruct s; reflexivity. Qed.

(** Rounding keeps the sign it is given. *)
Lemma binary_round_aux_sign (s : bool) (m e : Z) (l : location) :
  sf_negative (binary_round_aux prec emax s m e l) = true -> s = true.
Proof.
  unfold binary_round_aux.
  destruct (shr_fexp prec emax m e l) as [mrs' e'].
  destruct (shr_fexp _ _ _ e' loc_Exact) as [mrs'' e''].
  destruct s; [reflexivity|].
  destruct (shr_m mrs''); [| destruct (e'' <=? emax - prec) |];
    simpl; discriminate.
Qed.

Lemma binary_normalize_sign (m e : Z) :
  0 <= m -> sf_negative (binary_normalize prec emax m e false) = false.
Proof.
  intros Hm. destruct m as [|p|p]; simpl; try reflexivity; try lia.
  unfold binary_round.
  destruct (shl_align p e _) as [mz ez].
  destruct (sf_negative _) eqn:E; trivial.
  apply binary_round_aux_sign in E. discriminate.
Qed.

Lemma digits2_pos_bounds (m : positive) :
  2 ^ (Z.pos (digits2_pos m) - 1) <= Z.pos m < 2 ^ Z.pos (digits2_pos m).
Proof.
  induction m as [m IH|m IH|]; simpl digits2_pos.
  - rewrite Pos2Z.inj_succ.
    replace (Z.succ (Z.pos (digits2_pos m)) - 1)
      with (Z.succ (Z.pos (digits2_pos m) - 1)) by lia.
    rewrite !Z.pow_succ_r by lia. lia.
  - rewrite Pos2Z.inj_succ.
    replace (Z.succ (Z.pos (digits2_pos m)) - 1)
      with (Z.succ (Z.pos (digits2_pos m) - 1)) by lia.
    rewrite !Z.pow_succ_r by lia. lia.
  - simpl. lia.
Qed.

Lemma iter_xO_value (m d : positive) :
  Z.pos (Pos.iter xO m d) = Z.pos m * 2 ^ Z.pos d.
Proof.
  induction d as [|d IH] using Pos.peano_ind.
  - simpl. lia.
  - rewrite Pos.iter_succ, Pos2Z.inj_xO, IH, Pos2Z.inj_succ,
      Z.pow_succ_r by lia.
    lia.
Qed.

Lemma shl_align_value (m : positive) (e e' : Z) :
  e' <= e -> Z.pos (fst (shl_align m e e')) = Z.pos m * 2 ^ (e - e').
Proof.
  intros H. unfold shl_align.
  destruct (e' - e) as [|d|d] eqn:E; simpl fst.
  - replace (e - e') with 0 by lia. simpl. lia.
  - lia.
  - replace (e - e') with (Z.pos d) by lia. apply iter_xO_value.
Qed.

(** Of two valid finite numbers, the one with the larger exponent has the
    larger magnitude, also once both are aligned on the smaller exponent. *)
Lemma aligned_lt (m1 m2 : positive) (e1 e2 : Z) :
  bounded prec emax m1 e1 = true -> bounded prec emax m2 e2 = true ->
  e1 < e2 ->
  Z.pos m1 < Z.pos m2 * 2 ^ (e2 - e1).
Proof.
  unfold bounded, canonical_mantissa, fexp.
  intros H1 H2 Hlt.
  apply andb_prop in H1 as [H1 _]. apply andb_prop in H2 as [H2 _].
  apply Z.eqb_eq in H1, H2.
  pose proof (digits2_pos_bounds m1) as [_ B1].
  pose proof (digits2_pos_bounds m2) as [B2 _].
  assert (D2 : Z.pos (digits2_pos m2) = prec) by lia.
  assert (D1 : Z.pos (digits2_pos m1) <= prec) by lia.
  rewrite D2 in B2.
  assert (Z.pos m1 < 2 ^ prec).
  { eapply Z.lt_le_trans; [exact B1|]. apply Z.pow_le_mono_r; lia. }
  assert (2 ^ 1 <= 2 ^ (e2 - e1)) by (apply Z.pow_le_mono_r; lia).
  change (2 ^ prec) with (2 * 2 ^ (prec - 1)) in *.
  change (2 ^ 1) with 2 in *. nia.
Qed.

(** Subtraction: when [x <= y], the difference [y - x] is not negative. *)
Lemma sub_sign (x y : spec_float) :
  valid_binary x = true -> valid_binary y = true ->
  SFleb x y = true -> sf_negative (SF64sub y x) = false.
Proof.
  intros Vx Vy.
  destruct x as [sx|sx| |sx mx ex], y as [sy|sy| |sy my ey];
    try destruct sx; try destruct sy;
    try solve [simpl; first [reflexivity | discriminate]].
  all: unfold SFleb, SFcompare; intros L.
  all: try discriminate.
  all: apply binary_normalize_sign.
  all: simpl in Vx, Vy.
  - unfold cond_Zopp.
    destruct (Z.compare_spec ex ey) as [E|E|E]; try discriminate.
    + subst ey. rewrite Z.min_id. rewrite !shl_align_value by lia.
      rewrite Z.sub_diag. simpl (2 ^ 0).
      rewrite Pos.compare_cont_spec in L. simpl in L.
      destruct (Pos.compare_spec mx my); simpl in L; try discriminate; lia.
    + rewrite Z.min_l by lia. rewrite !shl_align_value by lia.
      rewrite Z.sub_diag.
      pose proof (aligned_lt my mx ey ex Vy Vx E). simpl (2 ^ 0). lia.
  - unfold cond_Zopp. lia.
  - unfold cond_Zopp.
    destruct (Z.compare_spec ex ey) as [E|E|E]; try discriminate.
    + subst ey. rewrite Z.min_id. rewrite !shl_align_value by lia.
      rewrite Z.sub_diag. simpl (2 ^ 0).
      rewrite Pos.compare_cont_spec in L. simpl in L.
      destruct (Pos.compare_spec mx my); simpl in L; try discriminate; lia.
    + rewrite Z.min_r by lia. rewrite !shl_align_value by lia.
      rewrite Z.sub_diag.
      pose proof (aligned_lt mx my ex ey Vx Vy E). simpl (2 ^ 0). lia.
Qed.

(** Multiplication: the product of two numbers that are not negative is
    not negative. *)
Lemma mul_sign (x y : spec_float) :
  sf_negative x = false -> sf_negative y = false ->
  sf_negative (SF64mul x y) = false.
Proof.
  destruct x as [sx|sx| |sx mx ex], y as [sy|sy| |sy my ey];
    try destruct sx; try destruct sy; simpl;
    try reflexivity; try discriminate.
  intros _ _.
  destruct (sf_negative _) eqn:E; trivial.
  apply binary_round_aux_sign in E. discriminate.
Qed.
End SF.

Section FloatSigns.
Local Open Scope float_scope.

Lemma Prim2SF_zero : Prim2SF 0 = S754_zero false.
Proof. reflexivity. Qed.

Lemma ltb_zero_negative (z : float) : (z <? 0) = sf_negative (Prim2SF z).
Proof. rewrite ltb_spec, Prim2SF_zero. apply SF.ltb_zero. Qed.

Lemma sub_not_negative (x y : float) :
  (x <=? y) = true -> (y - x <? 0) = false.
Proof.
  rewrite FloatAxioms.leb_spec, ltb_zero_negative, sub_spec.
  apply SF.sub_sign; apply Prim2SF_valid.
Qed.

Lemma mul_not_negative (x y : float) :
  (x <? 0) = false -> (y <? 0) = false -> (x * y <? 0) = false.
Proof. rewrite !ltb_zero_negative, mul_spec. apply SF.mul_sign. Qed.

Lemma not_negative_not_nan (z : float) :
  (z <? 0) = false -> is_nan z = false -> (0 <=? z) = true.
Proof.
  unfold is_nan.
  rewrite ltb_zero_negative, FloatAxioms.leb_spec, FloatAxioms.eqb_spec,
    Prim2SF_zero.
  destruct (Prim2SF z) as [s|s| |s m e]; try destruct s; simpl;
    try reflexivity; try discriminate.
Qed.
End FloatSigns.

(** * The setters *)

Lemma py_float_VFloat (x : float) : py_float (VFloat x) = Ok x.
Proof. reflexivity. Qed.

(** [float] raises nothing but OverflowError. *)
Lemma py_float_raises (v : value) (e : exn) :
  py_float v = Raise e -> e = OverflowError.
Proof.
  destruct v as [z|x]; simpl; [|discriminate].
  destruct (is_infinity (Z2float z)); congruence.
Qed.

Ltac unfold_setters :=
  unfold run, write, xmin_setter, xmax_setter, ymin_setter, ymax_setter,
    eval, assign, attr; simpl.
Ltac unfold_setters_in H :=
  unfold run, write, xmin_setter, xmax_setter, ymin_setter, ymax_setter,
    eval, assign, attr in H; simpl in H.

(** A write raises exactly when the conversion of its value does, and then
    with the same exception. *)
Lemma write_raises (f : extent) (v : value) (e : exn) (self : AABB) :
  py_float v = Raise e -> run (write f v) self = Raise e.
Proof. intros H. destruct f; unfold_setters; rewrite H; reflexivity. Qed.

Lemma write_succeeds (f : extent) (v : value) (x : float) (self : AABB) :
  py_float v = Ok x -> exists self', run (write f v) self = Ok (tt, self').
Proof.
  intros H. destruct f; unfold_setters; rewrite H; eexists; reflexivity.
Qed.

Lemma write_inv (f : extent) (v : value) (self self' : AABB) :
  run (write f v) self = Ok (tt, self') -> exists x, py_float v = Ok x.
Proof.
  destruct (py_float v) as [x|e] eqn:H; [eauto|].
  intros R. rewrite (write_raises f v e self H) in R. discriminate.
Qed.

(** What a successful write leaves behind, attribute by attribute. *)
Lemma write_effect (f : extent) (v : value) (x : float) (self self' : AABB) :
  py_float v = Ok x ->
  run (write f v) self = Ok (tt, self') ->
  stored f self' = x
  /\ pos_along f self' = half_span f self'
  /\ (forall g, extent_eqb g f = false -> stored g self' = stored g self)
  /\ pos_across f self' = pos_across f self
  /\ vel self' = vel self
  /\ mass self' = mass self
  /\ inertia self' = inertia self.
Proof.
  intros H R.
  destruct f; unfold_setters_in R; rewrite H in R;
    injection R as R; subst self'; simpl;
    (repeat split; trivial);
    intros g Hg; destruct g; simpl in *; congruence.
Qed.

(** C4. Writing an extent property stores [float(v)] in that extent and
    recomputes the position on the same axis as half the width
    [(xmax - xmin) / 2], or half the height [(ymax - ymin) / 2], of the box
    as it is after the write; when [float(v)] raises, so does the write.
    In particular [AABB(bbox=(0, 100, 0, 200))] followed by [xmax = 150] has
    bounding box [(0, 150, 0, 200)] and [position.x == 75.0]. *)
Theorem setter_stores_and_recentres :
  (forall (f : extent) (v : value) (self : AABB),
      match py_float v with
      | Ok x =>
          exists self',
            run (write f v) self = Ok (tt, self')
            /\ stored f self' = x
            /\ pos_along f self' = half_span f self'
      | Raise e => run (write f v) self = Raise e
      end)
  /\ (exists b b',
         AABB_init kw_bbox_0_100_0_200 = Ok b
         /\ run (write Xmax (VInt 150)) b = Ok (tt, b')
         /\ run bbox b' = Ok ((0, 150, 0, 200)%float, b')
         /\ Vector.x (_pos b') = 75%float).
Proof.
  split.
  - intros f v self. destruct (py_float v) as [x|e] eqn:H.
    + destruct (write_succeeds f v x self H) as [self' R].
      exists self'. split; [exact R|].
      destruct (write_effect f v x self self' H R) as (S & P & _).
      split; assumption.
    + apply write_raises, H.
  - eexists. eexists. repeat split; vm_compute; reflexivity.
Qed.

Lemma converts_true (v : value) :
  converts v = true -> exists x, py_float v = Ok x.
Proof.
  destruct v as [z|x]; simpl; [|eauto].
  destruct (is_infinity (Z2float z)); [discriminate|eauto].
Qed.

Lemma converts_false (v : value) :
  converts v = false -> py_float v = Raise OverflowError.
Proof.
  destruct v as [z|x]; simpl; [|discriminate].
  destruct (is_infinity (Z2float z)); [reflexivity|discriminate].
Qed.

(** C7, as the code has it. A write of a float, or of an int that [float]
    can convert, succeeds whatever the body and the value are (also when it
    leaves [xmin > xmax] or [ymin > ymax]) and changes only the written
    extent and the position on its axis: the other three extents, the
    position on the other axis, the velocity and the mass stay as they were.
    A write of an int too large for a float raises OverflowError. *)
Theorem setter_succeeds_and_frames (f : extent) (v : value) (self : AABB) :
  (converts v = true ->
   exists self',
     run (write f v) self = Ok (tt, self')
     /\ (forall g, extent_eqb g f = false -> stored g self' = stored g self)
     /\ pos_across f self' = pos_across f self
     /\ vel self' = vel self
     /\ mass self' = mass self)
  /\ (converts v = false -> run (write f v) self = Raise OverflowError).
Proof.
  split; intros C.
  - destruct (converts_true v C) as [x H].
    destruct (write_succeeds f v x self H) as [self' R].
    exists self'. split; [exact R|].
    destruct (write_effect f v x self self' H R) as (_ & _ & F & A & V & M & _).
    repeat split; assumption.
  - apply write_raises, converts_false, C.
Qed.

(** The write [xmin = 150] on the box [(0, 100, 0, 200)] succeeds although
    it leaves [xmin > xmax]. *)
Lemma setter_succeeds_and_frames_witness :
  converts (VInt 150) = true
  /\ exists self',
      run (write Xmin (VInt 150)) body_0_100_0_200 = Ok (tt, self')
      /\ (forall g, extent_eqb g Xmin = false ->
                    stored g self' = stored g body_0_100_0_200)
      /\ pos_across Xmin self' = pos_across Xmin body_0_100_0_200
      /\ vel self' = vel body_0_100_0_200
      /\ mass self' = mass body_0_100_0_200.
Proof.
  split; [reflexivity|].
  apply (proj1 (setter_succeeds_and_frames Xmin (VInt 150) body_0_100_0_200)).
  reflexivity.
Defined.

(** C7, as stated, fails: the write [xmin = 10**400] raises OverflowError,
    so a setter does not succeed for every numeric value. *)
Lemma setter_overflow_counterexample :
  run (write Xmin (VInt (10 ^ 400))) body_0_100_0_200 = Raise OverflowError
  /\ ~ (forall (f : extent) (v : value) (self : AABB),
          exists self', run (write f v) self = Ok (tt, self')).
Proof.
  assert (R : run (write Xmin (VInt (10 ^ 400))) body_0_100_0_200
              = Raise OverflowError) by (vm_compute; reflexivity).
  split; [exact R|].
  intros H.
  destruct (H Xmin (VInt (10 ^ 400)) body_0_100_0_200) as [self' R'].
  rewrite R in R'. discriminate.
Qed.

(** * Commuting writes *)

(** The outcome of the first write of a sequence decides how it goes on. *)
Lemma perform_cons (f : extent) (v : value) (ws : list (extent * value))
      (self : AABB) :
  perform ((f, v) :: ws) self
  = match run (write f v) self with
    | Ok (_, self') => perform ws self'
    | Raise e => (self, Some e)
    end.
Proof. reflexivity. Qed.

(** C10, as the code has it. Writes to two distinct extent properties
    commute when [float] converts both values, or neither: [f = a; g = b]
    and [g = b; f = a], run on the same body, leave the same body behind
    (extents, position, velocity and the rest).  When both values convert,
    both orders run to their end; when neither does, both orders raise
    OverflowError at their first write and leave the body untouched. *)
Theorem writes_commute_when_both_convert (f g : extent) (a b : value)
        (self : AABB) :
  extent_eqb f g = false ->
  converts a = converts b ->
  perform [(f, a); (g, b)] self = perform [(g, b); (f, a)] self
  /\ (if converts a
      then exists self', perform [(f, a); (g, b)] self = (self', None)
      else perform [(f, a); (g, b)] self = (self, Some OverflowError)).
Proof.
  intros D C. destruct (converts a) eqn:Ca; symmetry in C.
  - destruct (converts_true a Ca) as [x Ha].
    destruct (converts_true b C) as [y Hb].
    split.
    + destruct f, g; try discriminate D;
        rewrite !perform_cons; unfold_setters; rewrite ?Ha, ?Hb; simpl;
        unfold_setters; rewrite ?Ha, ?Hb; reflexivity.
    + destruct (write_succeeds f a x self Ha) as [mid R1].
      destruct (write_succeeds g b y mid Hb) as [self' R2].
      exists self'. rewrite perform_cons, R1. cbv iota beta.
      rewrite perform_cons, R2. reflexivity.
  - pose proof (converts_false a Ca) as Ha.
    pose proof (converts_false b C) as Hb.
    rewrite !perform_cons.
    rewrite (write_raises f a _ self Ha), (write_raises g b _ self Hb).
    split; reflexivity.
Qed.

Lemma writes_commute_when_both_convert_witness :
  (extent_eqb Xmin Xmax = false
   /\ converts (VInt 150) = converts (VFloat 175.5))
  /\ perform [(Xmin, VInt 150); (Xmax, VFloat 175.5)] body_0_100_0_200
     = perform [(Xmax, VFloat 175.5); (Xmin, VInt 150)] body_0_100_0_200.
Proof.
  split; [split; reflexivity|].
  apply (writes_commute_when_both_convert
           Xmin Xmax (VInt 150) (VFloat 175.5) body_0_100_0_200);
    reflexivity.
Defined.

(** C10, as stated, fails: [float(10**400)] raises OverflowError.  Run on
    the box [(0, 100, 0, 200)], [xmin = 10**400; xmax = 150] raises at its
    first write and leaves the body untouched, while
    [xmax = 150; xmin = 10**400] has already stored [xmax = 150] and
    [position.x = 75] when it raises. *)
Lemma writes_commute_counterexample :
  extent_eqb Xmin Xmax = false
  /\ perform [(Xmin, VInt (10 ^ 400)); (Xmax, VInt 150)] body_0_100_0_200
     = (body_0_100_0_200, Some OverflowError)
  /\ perform [(Xmax, VInt 150); (Xmin, VInt (10 ^ 400))] body_0_100_0_200
     = (body_0_150_0_200, Some OverflowError)
  /\ perform [(Xmin, VInt (10 ^ 400)); (Xmax, VInt 150)] body_0_100_0_200
     <> perform [(Xmax, VInt 150); (Xmin, VInt (10 ^ 400))] body_0_100_0_200.
Proof.
  assert (P1 : perform [(Xmin, VInt (10 ^ 400)); (Xmax, VInt 150)]
                       body_0_100_0_200
               = (body_0_100_0_200, Some OverflowError))
    by (vm_compute; reflexivity).
  assert (P2 : perform [(Xmax, VInt 150); (Xmin, VInt (10 ^ 400))]
                       body_0_100_0_200
               = (body_0_150_0_200, Some OverflowError))
    by (vm_compute; reflexivity).
  split; [reflexivity|]. split; [exact P1|]. split; [exact P2|].
  rewrite P1, P2. intros H.
  apply (f_equal (fun r => PrimFloat.eqb (_xmax (fst r)) 100)) in H.
  vm_compute in H. discriminate.
Qed.

(** * Construction *)

Section ConstructionFacts.
Local Open Scope float_scope.

Lemma py_float4_VFloat (a b c d : float) :
  py_float4 (VFloat a, VFloat b, VFloat c, VFloat d) = Ok (a, b, c, d).
Proof. reflexivity. Qed.

(** With none of [bbox], [rect] and [shape], the four individual extents
    decide. *)
Lemma aabb_bbox_extents (pos : option pair2) (a b c d : option value) :
  aabb_bbox None None None pos a b c d
  = match a, b, c, d with
    | Some a, Some b, Some c, Some d =>
        e <- py_float4 (a, b, c, d) ;;
        if inverted e then Raise InvalidGeometryError else ret e
    | _, _, _, _ => Raise ConstructionAmbiguityError
    end.
Proof. destruct a, b, c, d; reflexivity. Qed.

(** With [bbox] and no individual extent, the box is passed through. *)
Lemma aabb_bbox_bbox (t : tuple4) (rect : option tuple4)
      (shape pos : option pair2) :
  aabb_bbox (Some t) rect shape pos None None None None
  = (e <- py_float4 t ;;
     if inverted e then Raise InvalidGeometryError else ret e).
Proof.
  unfold aabb_bbox, resolve_form. simpl.
  destruct (py_float4 t) as [[[[a b] c] d]|e]; reflexivity.
Qed.

(** With [rect] and neither [bbox] nor individual extents, the box runs from
    the corner over the width and the height. *)
Lemma aabb_bbox_rect (x y w h : float) (shape pos : option pair2) :
  aabb_bbox None (Some (VFloat x, VFloat y, VFloat w, VFloat h)) shape pos
            None None None None
  = (let e := (x, x + w, y, y + h) in
     if inverted e then Raise InvalidGeometryError else ret e).
Proof. reflexivity. Qed.

(** What a successful construction has assigned. *)
Lemma AABB_init_inv (kw : kwargs) (b : AABB) :
  AABB_init kw = Ok b ->
  exists (e : extents) (v : float * float),
    aabb_bbox (kw_bbox kw) (kw_rect kw) (kw_shape kw) (kw_pos kw)
              (kw_xmin kw) (kw_xmax kw) (kw_ymin kw) (kw_ymax kw) = Ok e
    /\ py_float2 (kw_vel kw) = Ok v
    /\ box b = e
    /\ _pos b = midpoint b
    /\ vel b = Vector.mk (fst v) (snd v)
    /\ inertia b = infinity
    /\ match kw_mass kw with
       | Some m => py_float m = Ok (mass b)
       | None =>
           exists d,
             match kw_density kw with
             | Some dv => py_float dv = Ok d
             | None => d = 1
             end
             /\ mass b = (_xmax b - _xmin b) * (_ymax b - _ymin b) * d
       end.
Proof.
  unfold AABB_init, LinearRigidBody_init. simpl.
  destruct (aabb_bbox _ _ _ _ _ _ _ _) as [[[[lo_x hi_x] lo_y] hi_y]|e];
    [|discriminate].
  destruct (py_float2 (kw_vel kw)) as [[v_x v_y]|e]; [|discriminate].
  destruct (kw_mass kw) as [m|].
  - destruct (py_float m) as [fm|e]; [|discriminate].
    intros H; injection H as H; subst b.
    exists (lo_x, hi_x, lo_y, hi_y), (v_x, v_y). repeat split.
  - destruct (kw_density kw) as [dv|].
    + destruct (py_float dv) as [d|e] eqn:Hd; [|discriminate].
      intros H; injection H as H; subst b.
      exists (lo_x, hi_x, lo_y, hi_y), (v_x, v_y). repeat split.
      exists d. split; reflexivity.
    + intros H; injection H as H; subst b.
      exists (lo_x, hi_x, lo_y, hi_y), (v_x, v_y). repeat split.
      exists 1. split; reflexivity.
Qed.

(** Construction from a box of floats, all other arguments left out. *)
Lemma AABB_init_bbox (a b c d : float) :
  AABB_init (with_bbox (VFloat a, VFloat b, VFloat c, VFloat d) defaults)
  = if inverted (a, b, c, d) then Raise InvalidGeometryError
    else Ok (mkAABB a b c d (Vector.mk ((a + b) / 2) ((c + d) / 2))
                    (Vector.mk 0 0) ((b - a) * (d - c) * 1) infinity).
Proof.
  unfold AABB_init. simpl kw_bbox. simpl kw_rect. simpl kw_shape.
  simpl kw_pos. simpl kw_xmin. simpl kw_xmax. simpl kw_ymin. simpl kw_ymax.
  rewrite aabb_bbox_bbox, py_float4_VFloat. simpl.
  destruct (_ || _); reflexivity.
Qed.
End ConstructionFacts.

Section Ordering.
Local Open Scope float_scope.

Lemma SFleb_not_gt (x y : spec_float) :
  SFleb x y = true -> SFltb y x = false.
Proof.
  destruct x as [sx|sx| |sx mx ex], y as [sy|sy| |sy my ey];
    try destruct sx; try destruct sy;
    try solve [simpl; first [reflexivity | discriminate]].
  all: unfold SFleb, SFltb, SFcompare.
  all: rewrite (Z.compare_antisym ex ey), !Pos.compare_cont_spec.
  all: simpl Pos.switch_Eq.
  all: rewrite (Pos.compare_antisym mx my).
  all: destruct (ex ?= ey)%Z; simpl; try reflexivity; try discriminate.
  all: destruct (mx ?= my)%positive; simpl; try reflexivity;
    try discriminate.
Qed.

(** [x <= y] excludes [y < x]. *)
Lemma leb_not_gt (x y : float) : (x <=? y) = true -> (y <? x) = false.
Proof.
  rewrite FloatAxioms.leb_spec, FloatAxioms.ltb_spec. apply SFleb_not_gt.
Qed.

(** A box with [xmin <= xmax] and [ymin <= ymax] is not inverted. *)
Lemma ordered_not_inverted (lo_x hi_x lo_y hi_y : float) :
  (lo_x <=? hi_x) = true -> (lo_y <=? hi_y) = true ->
  inverted (lo_x, hi_x, lo_y, hi_y) = false.
Proof.
  intros Hx Hy. unfold inverted.
  rewrite (leb_not_gt _ _ Hx), (leb_not_gt _ _ Hy). reflexivity.
Qed.
End Ordering.

(** * Sequences of writes *)

Lemma writes_cons_inv (f : extent) (v : value) (ws : list (extent * value))
      (self self' : AABB) :
  run (writes ((f, v) :: ws)) self = Ok (tt, self') ->
  exists mid,
    run (write f v) self = Ok (tt, mid) /\ run (writes ws) mid = Ok (tt, self').
Proof.
  unfold run. simpl.
  destruct (write f v self) as [[[] mid]|e]; [|discriminate].
  intros H. exists mid. split; [reflexivity|exact H].
Qed.

(** A successful write, seen from one axis: on its own axis it leaves the
    position at half the span, on the other it changes nothing. *)
Lemma write_axes (f : extent) (v : value) (self self' : AABB) :
  run (write f v) self = Ok (tt, self') ->
  (if horizontal f
   then Vector.x (_pos self') = (_xmax self' - _xmin self') / 2
        /\ Vector.y (_pos self') = Vector.y (_pos self)
        /\ _ymin self' = _ymin self /\ _ymax self' = _ymax self
   else Vector.y (_pos self') = (_ymax self' - _ymin self') / 2
        /\ Vector.x (_pos self') = Vector.x (_pos self)
        /\ _xmin self' = _xmin self /\ _xmax self' = _xmax self)%float.
Proof.
  intros R. destruct (write_inv f v self self' R) as [x H].
  destruct (write_effect f v x self self' H R) as (_ & P & F & A & _).
  destruct f; simpl; unfold pos_along, half_span, pos_across in *; simpl in *;
    (split; [exact P|]); (split; [exact A|]).
  - split; [apply (F Ymin)|apply (F Ymax)]; reflexivity.
  - split; [apply (F Ymin)|apply (F Ymax)]; reflexivity.
  - split; [apply (F Xmin)|apply (F Xmax)]; reflexivity.
  - split; [apply (F Xmin)|apply (F Xmax)]; reflexivity.
Qed.

Lemma writes_axes (ws : list (extent * value)) :
  forall self self',
    run (writes ws) self = Ok (tt, self') ->
    ((if touches_x ws
      then Vector.x (_pos self') = (_xmax self' - _xmin self') / 2
      else Vector.x (_pos self') = Vector.x (_pos self)
           /\ _xmin self' = _xmin self /\ _xmax self' = _xmax self)
     /\ (if touches_y ws
         then Vector.y (_pos self') = (_ymax self' - _ymin self') / 2
         else Vector.y (_pos self') = Vector.y (_pos self)
              /\ _ymin self' = _ymin self /\ _ymax self' = _ymax self))%float.
Proof.
  induction ws as [|[f v] ws IH]; intros self self' R.
  - unfold run in R. simpl in R. injection R as R; subst self'.
    simpl. repeat split.
  - apply writes_cons_inv in R as (mid & R1 & R2).
    specialize (IH mid self' R2). apply write_axes in R1.
    unfold touches_x, touches_y in *. simpl existsb.
    set (tx := existsb (fun w => horizontal (fst w)) ws) in *.
    set (ty := existsb (fun w => negb (horizontal (fst w))) ws) in *.
    destruct (horizontal f), tx, ty; simpl in *; intuition congruence.
Qed.

Lemma writes_inertia (ws : list (extent * value)) :
  forall self self',
    run (writes ws) self = Ok (tt, self') -> inertia self' = inertia self.
Proof.
  induction ws as [|[f v] ws IH]; intros self self' R.
  - unfold run in R. simpl in R. injection R as R; subst self'. reflexivity.
  - apply writes_cons_inv in R as (mid & R1 & R2).
    rewrite (IH mid self' R2).
    destruct (write_inv f v self mid R1) as [x H].
    apply (write_effect f v x self mid H R1).
Qed.

(** C1, as the code has it. Construction, in any of its forms, leaves the
    position at the midpoint of the box,
    [((xmin + xmax) / 2, (ymin + ymax) / 2)].  After a sequence of extent
    writes, [position.x] is [(xmax - xmin) / 2] when the sequence wrote
    [xmin] or [xmax], and otherwise [position.x], [xmin] and [xmax] are what
    they were before the sequence; likewise for [position.y] with [ymin] and
    [ymax].  The equalities are exact: the two sides are the same float. *)
Theorem centre_after_construction_and_writes :
  (forall (kw : kwargs) (b : AABB),
      AABB_init kw = Ok b -> _pos b = midpoint b)
  /\ (forall (ws : list (extent * value)) (self self' : AABB),
         run (writes ws) self = Ok (tt, self') ->
         (if touches_x ws
          then Vector.x (_pos self') = (_xmax self' - _xmin self') / 2
          else Vector.x (_pos self') = Vector.x (_pos self)
               /\ _xmin self' = _xmin self /\ _xmax self' = _xmax self)
         /\ (if touches_y ws
             then Vector.y (_pos self') = (_ymax self' - _ymin self') / 2
             else Vector.y (_pos self') = Vector.y (_pos self)
                  /\ _ymin self' = _ymin self /\ _ymax self' = _ymax self))%float.
Proof.
  split.
  - intros kw b H. apply AABB_init_inv in H as (e & v & _ & _ & _ & P & _).
    exact P.
  - intros ws. apply writes_axes.
Qed.

(** [AABB(shape=(100, 200))] sits at its midpoint, the origin; after
    [xmax = 60] its [position.x] is half the width and its [position.y] is
    untouched. *)
Lemma centre_after_construction_and_writes_witness :
  (AABB_init kw_shape_100_200 = Ok body_shape_100_200
   /\ _pos body_shape_100_200 = midpoint body_shape_100_200)
  /\ exists self',
      run (writes [(Xmax, VInt 60)]) body_shape_100_200 = Ok (tt, self')
      /\ (Vector.x (_pos self') = (_xmax self' - _xmin self') / 2
          /\ Vector.y (_pos self') = Vector.y (_pos body_shape_100_200)
          /\ _ymin self' = _ymin body_shape_100_200
          /\ _ymax self' = _ymax body_shape_100_200)%float.
Proof.
  assert (C : AABB_init kw_shape_100_200 = Ok body_shape_100_200)
    by (vm_compute; reflexivity).
  split.
  - split; [exact C|].
    exact (proj1 centre_after_construction_and_writes _ _ C).
  - eexists. split; [vm_compute; reflexivity|].
    exact (proj2 centre_after_construction_and_writes
                 [(Xmax, VInt 60)] body_shape_100_200 _ eq_refl).
Defined.

(** C1, as stated, fails.  [AABB(shape=(100, 200))] is built with
    [position == (0, 0)] while [((xmax-xmin)/2, (ymax-ymin)/2)] is
    [(50, 100)], far beyond the tolerance; and after the write [xmax = 60]
    the [y] component is still 0, not 100. *)
Lemma centre_counterexample :
  AABB_init kw_shape_100_200 = Ok body_shape_100_200
  /\ ~ centred body_shape_100_200
  /\ close (Vector.x (_pos body_shape_100_200))
           ((_xmax body_shape_100_200 - _xmin body_shape_100_200) / 2)%float
     = false
  /\ exists self',
      run (writes [(Xmax, VInt 60)]) body_shape_100_200 = Ok (tt, self')
      /\ ~ centred self'
      /\ close (Vector.y (_pos self'))
               ((_ymax self' - _ymin self') / 2)%float = false.
Proof.
  split; [vm_compute; reflexivity|].
  split.
  { intros [H _]. simpl in H.
    apply (f_equal (fun z => PrimFloat.eqb z 0)) in H.
    vm_compute in H. discriminate. }
  split; [vm_compute; reflexivity|].
  eexists. split; [vm_compute; reflexivity|]. split.
  - intros [_ H]. simpl in H.
    apply (f_equal (fun z => PrimFloat.eqb z 0)) in H.
    vm_compute in H. discriminate.
  - vm_compute. reflexivity.
Qed.

(** C6. The inertia of a body is positive infinity after construction,
    whatever the arguments, and after any sequence of extent writes. *)
Theorem inertia_is_infinite (kw : kwargs) (ws : list (extent * value))
        (b b' : AABB) :
  AABB_init kw = Ok b ->
  run (writes ws) b = Ok (tt, b') ->
  inertia b = infinity /\ inertia b' = infinity.
Proof.
  intros C R.
  apply AABB_init_inv in C as (e & v & _ & _ & _ & _ & _ & I & _).
  split; [exact I|].
  rewrite (writes_inertia ws b b' R). exact I.
Qed.

Lemma inertia_is_infinite_witness :
  AABB_init kw_bbox_0_100_0_200 = Ok body_0_100_0_200
  /\ exists b',
      run (writes [(Xmax, VInt 150); (Ymin, VFloat (-2.5))]) body_0_100_0_200
      = Ok (tt, b')
      /\ inertia body_0_100_0_200 = infinity /\ inertia b' = infinity.
Proof.
  assert (C : AABB_init kw_bbox_0_100_0_200 = Ok body_0_100_0_200)
    by (vm_compute; reflexivity).
  split; [exact C|].
  eexists. split; [vm_compute; reflexivity|].
  exact (inertia_is_infinite kw_bbox_0_100_0_200
           [(Xmax, VInt 150); (Ymin, VFloat (-2.5))] _ _ C eq_refl).
Defined.

(** * [primitive] *)

Lemma primitive_run (self : AABB) :
  run primitive self
  = if inverted (box self) then Raise InvalidGeometryError
    else Ok (mkAABB (_xmin self) (_xmax self) (_ymin self) (_ymax self)
                    (Vector.mk ((_xmin self + _xmax self) / 2)
                               ((_ymin self + _ymax self) / 2))
                    (Vector.mk 0 0)
                    ((_xmax self - _xmin self) * (_ymax self - _ymin self) * 1)
                    infinity,
             self)%float.
Proof.
  unfold run, primitive, bbox, attr, eval. simpl.
  rewrite AABB_init_bbox. unfold box, inverted.
  destruct (_ || _); reflexivity.
Qed.

Lemma AABB_init_with_aabb_bbox (kw : kwargs) :
  AABB_init_with aabb_bbox kw = AABB_init kw.
Proof. reflexivity. Qed.

Lemma primitive_with_aabb_bbox (self : AABB) :
  run (primitive_with aabb_bbox) self = run primitive self.
Proof. reflexivity. Qed.

Lemma aabb_bbox_untested_passes : passes_bbox aabb_bbox_untested.
Proof. intros a b c d. reflexivity. Qed.



(** * The construction forms *)

(** C3, as the resolver of the spec has it. The forms [bbox=(a, b, c, d)]
    and the four individual extents (positional or by keyword: both bind the
    parameters [xmin], [xmax], [ymin], [ymax]) build the same body for all
    arguments.  The form [rect=(x, y, w, h)] builds the body of the box
    [(x, x + w, y, y + h)], the sums being binary64 sums; so for extents with
    [xmin <= xmax] and [ymin <= ymax], [rect=(xmin, ymin, xmax-xmin,
    ymax-ymin)] builds the same body as the other forms, with
    [bbox() == (xmin, xmax, ymin, ymax)], whenever [xmin + (xmax - xmin)] and
    [ymin + (ymax - ymin)] give back [xmax] and [ymax]. *)
Theorem construction_forms_agree :
  (forall a b c d : value,
      AABB_init (with_extents (Some a) (Some b) (Some c) (Some d) defaults)
      = AABB_init (with_bbox (a, b, c, d) defaults))
  /\ (forall x y w h : float,
         AABB_init (with_rect (VFloat x, VFloat y, VFloat w, VFloat h) defaults)
         = AABB_init (with_bbox (VFloat x, VFloat (x + w),
                                 VFloat y, VFloat (y + h)) defaults))
  /\ (forall lo_x hi_x lo_y hi_y : float,
         (lo_x <=? hi_x) = true -> (lo_y <=? hi_y) = true ->
         lo_x + (hi_x - lo_x) = hi_x -> lo_y + (hi_y - lo_y) = hi_y ->
         exists body,
           AABB_init (with_bbox (VFloat lo_x, VFloat hi_x,
                                 VFloat lo_y, VFloat hi_y) defaults) = Ok body
           /\ AABB_init (with_rect (VFloat lo_x, VFloat lo_y,
                                    VFloat (hi_x - lo_x),
                                    VFloat (hi_y - lo_y)) defaults) = Ok body
           /\ AABB_init (with_extents (Some (VFloat lo_x)) (Some (VFloat hi_x))
                                      (Some (VFloat lo_y)) (Some (VFloat hi_y))
                                      defaults) = Ok body
           /\ run bbox body = Ok ((lo_x, hi_x, lo_y, hi_y), body))%float.
Proof.
  assert (E : forall a b c d : value,
             AABB_init (with_extents (Some a) (Some b) (Some c) (Some d)
                                     defaults)
             = AABB_init (with_bbox (a, b, c, d) defaults)).
  { intros a b c d. unfold AABB_init. simpl.
    rewrite aabb_bbox_bbox, aabb_bbox_extents. reflexivity. }
  assert (R : forall x y w h : float,
             AABB_init (with_rect (VFloat x, VFloat y, VFloat w, VFloat h)
                                  defaults)
             = AABB_init (with_bbox (VFloat x, VFloat (x + w),
                                     VFloat y, VFloat (y + h)) defaults)).
  { intros x y w h. unfold AABB_init. simpl.
    rewrite aabb_bbox_bbox, aabb_bbox_rect, py_float4_VFloat. reflexivity. }
  split; [exact E|]. split; [exact R|].
  intros lo_x hi_x lo_y hi_y Hx Hy Ex Ey.
  rewrite E, R, Ex, Ey, AABB_init_bbox.
  rewrite (ordered_not_inverted _ _ _ _ Hx Hy).
  eexists. repeat split.
Qed.

(** The scenarios [bbox=(0, 100, 0, 200)], [rect=(0, 0, 100, 200)] and the
    extents [0, 100, 0, 200] build one and the same body. *)
Lemma construction_forms_agree_witness :
  ((0 <=? 100) = true /\ (0 <=? 200) = true
   /\ 0 + (100 - 0) = 100 /\ 0 + (200 - 0) = 200)%float
  /\ exists body,
      AABB_init (with_bbox (VFloat 0, VFloat 100, VFloat 0, VFloat 200)
                           defaults) = Ok body
      /\ AABB_init (with_rect (VFloat 0, VFloat 0, VFloat (100 - 0),
                               VFloat (200 - 0)) defaults) = Ok body
      /\ AABB_init (with_extents (Some (VFloat 0)) (Some (VFloat 100))
                                 (Some (VFloat 0)) (Some (VFloat 200))
                                 defaults) = Ok body
      /\ run bbox body = Ok ((0, 100, 0, 200)%float, body).
Proof.
  split; [repeat split; vm_compute; reflexivity|].
  apply (proj2 (proj2 construction_forms_agree) 0 100 0 200)%float;
    vm_compute; reflexivity.
Defined.

(** The same scenarios with the int arguments of the docstring. *)
Lemma construction_scenarios :
  AABB_init kw_bbox_0_100_0_200 = Ok body_0_100_0_200
  /\ AABB_init kw_rect_0_0_100_200 = Ok body_0_100_0_200
  /\ AABB_init kw_extents_0_100_0_200 = Ok body_0_100_0_200
  /\ run bbox body_0_100_0_200 = Ok ((0, 100, 0, 200)%float, body_0_100_0_200).
Proof. repeat split; vm_compute; reflexivity. Qed.

(** C3, as stated, fails: for the extents [(0.3, 0.9, 0, 1)] the width
    [0.9 - 0.3] is [0.6000000000000001] and [0.3 + 0.6000000000000001] is
    [0.9000000000000001], so the [rect] form and the [bbox] form build bodies
    with different [bbox()]. *)
Lemma construction_forms_counterexample :
  ((0.3 <=? 0.9) = true /\ (0 <=? 1) = true)%float
  /\ exists by_bbox by_rect e1 e2,
      AABB_init (with_bbox (VFloat 0.3, VFloat 0.9, VFloat 0, VFloat 1)
                           defaults) = Ok by_bbox
      /\ AABB_init (with_rect (VFloat 0.3, VFloat 0,
                               VFloat (0.9 - 0.3), VFloat (1 - 0))
                              defaults) = Ok by_rect
      /\ run bbox by_bbox = Ok (e1, by_bbox)
      /\ run bbox by_rect = Ok (e2, by_rect)
      /\ e1 <> e2.
Proof.
  split; [split; vm_compute; reflexivity|].
  eexists. eexists. eexists. eexists.
  split; [vm_compute; reflexivity|].
  split; [vm_compute; reflexivity|].
  split; [vm_compute; reflexivity|].
  split; [vm_compute; reflexivity|].
  intros H.
  apply (f_equal (fun e : extents =>
                    let '(_, hi_x, _, _) := e in PrimFloat.eqb hi_x 0.9)) in H.
  vm_compute in H. discriminate.
Qed.

(** * Area and mass *)

Lemma area_run (self : AABB) :
  run area self
  = Ok ((_xmax self - _xmin self) * (_ymax self - _ymin self), self)%float.
Proof. reflexivity. Qed.

(** C9. [area()] returns [(xmax - xmin) * (ymax - ymin)] and leaves the body
    as it was.  When [xmin <= xmax] and [ymin <= ymax] the result is never
    negative: [area() < 0] is false, and [0 <= area()] holds unless the
    product is not a number (infinity times zero, for an overflowing
    width or height). *)
Theorem area_product_not_negative (self : AABB) :
  (run area self
   = Ok ((_xmax self - _xmin self) * (_ymax self - _ymin self), self)
   /\ ((_xmin self <=? _xmax self) = true ->
       (_ymin self <=? _ymax self) = true ->
       exists a,
         run area self = Ok (a, self)
         /\ (a <? 0) = false
         /\ (is_nan a = false -> (0 <=? a) = true)))%float.
Proof.
  split; [apply area_run|].
  intros Hx Hy. eexists. split; [apply area_run|].
  assert (N : ((_xmax self - _xmin self) * (_ymax self - _ymin self) <? 0)%float
              = false).
  { apply mul_not_negative; apply sub_not_negative; assumption. }
  split; [exact N|]. apply not_negative_not_nan, N.
Qed.

(** The degenerate box [(0, 100, 200, 200)] has area zero. *)
Lemma area_product_not_negative_witness :
  let self := mkAABB 0 100 200 200 (Vector.mk 50 200) (Vector.mk 0 0) 0
                     infinity in
  ((_xmin self <=? _xmax self) = true
   /\ (_ymin self <=? _ymax self) = true
   /\ exists a,
       run area self = Ok (a, self)
       /\ (a <? 0) = false
       /\ (is_nan a = false -> (0 <=? a) = true))%float.
Proof.
  intros self.
  split; [reflexivity|]. split; [reflexivity|].
  apply (proj2 (area_product_not_negative self)); reflexivity.
Defined.

(** The one way to a result that is not a number: the width of the box
    [(-1e308, 1e308, 0, 0)] overflows to infinity, its height is zero, and
    infinity times zero is NaN, which is neither negative nor [>= 0]. *)
Lemma area_overflow_example :
  let self := mkAABB (-1e308) 1e308 0 0 (Vector.mk 0 0) (Vector.mk 0 0) 0
                     infinity in
  exists a,
    run area self = Ok (a, self)
    /\ is_nan a = true
    /\ ((a <? 0) = false /\ (0 <=? a) = false)%float.
Proof. eexists. repeat split. Qed.

(** C5. Without an explicit mass, the mass of a constructed body is
    [area() * density], the density being the given one or 1.0 when none is
    given; with an explicit mass, the mass is that mass and the density
    changes nothing.  In particular [AABB(shape=(100, 200))] has
    [bbox() == (-50.0, 50.0, -100.0, 100.0)] and [mass == 20000.0]. *)
Theorem mass_from_area_and_density :
  (forall (kw : kwargs) (b : AABB),
      kw_mass kw = None ->
      AABB_init kw = Ok b ->
      exists a d,
        run area b = Ok (a, b)
        /\ match kw_density kw with
           | Some dv => py_float dv = Ok d
           | None => d = 1%float
           end
        /\ mass b = (a * d)%float)
  /\ (forall (kw : kwargs) (m : value) (b : AABB),
         kw_mass kw = Some m ->
         AABB_init kw = Ok b ->
         py_float m = Ok (mass b))
  /\ (forall (kw : kwargs) (m : value) (d : option value),
         kw_mass kw = Some m ->
         AABB_init (with_density d kw) = AABB_init kw)
  /\ (exists b,
         AABB_init kw_shape_100_200 = Ok b
         /\ run bbox b = Ok ((-50, 50, -100, 100)%float, b)
         /\ mass b = 20000%float).
Proof.
  split; [|split; [|split]].
  - intros kw b Hm C.
    apply AABB_init_inv in C as (e & v & _ & _ & _ & _ & _ & _ & M).
    rewrite Hm in M. destruct M as (d & Hd & M).
    eexists. exists d. split; [apply area_run|]. split; assumption.
  - intros kw m b Hm C.
    apply AABB_init_inv in C as (e & v & _ & _ & _ & _ & _ & _ & M).
    rewrite Hm in M. exact M.
  - intros kw m d Hm. unfold AABB_init, LinearRigidBody_init. simpl.
    rewrite Hm. reflexivity.
  - exists body_shape_100_200. repeat split; vm_compute; reflexivity.
Qed.

(** [AABB(bbox=(0, 100, 0, 200), density=2.5)] weighs 50000, and
    [AABB(bbox=(0, 100, 0, 200), mass=7)] weighs 7 whatever the density. *)
Lemma mass_from_area_and_density_witness :
  let kw := with_density (Some (VFloat 2.5)) kw_bbox_0_100_0_200 in
  let b := mkAABB 0 100 0 200 (Vector.mk 50 100) (Vector.mk 0 0) 50000
                  infinity in
  let kw' := with_mass (Some (VInt 7)) kw_bbox_0_100_0_200 in
  (kw_mass kw = None /\ AABB_init kw = Ok b
   /\ exists a d,
       run area b = Ok (a, b)
       /\ py_float (VFloat 2.5) = Ok d
       /\ mass b = (a * d)%float)
  /\ (kw_mass kw' = Some (VInt 7)
      /\ AABB_init (with_density (Some (VFloat 2.5)) kw') = AABB_init kw').
Proof.
  intros kw b kw'.
  assert (C : AABB_init kw = Ok b) by (vm_compute; reflexivity).
  split.
  - split; [reflexivity|]. split; [exact C|].
    exact (proj1 mass_from_area_and_density kw b eq_refl C).
  - split; [reflexivity|].
    exact (proj1 (proj2 (proj2 mass_from_area_and_density))
                 kw' (VInt 7) (Some (VFloat 2.5)) eq_refl).
Defined.

(** * Undetermined extents *)

Lemma py_float2_raises (p : pair2) (e : exn) :
  py_float2 p = Raise e -> e = OverflowError.
Proof.
  destruct p as [a b]. simpl.
  destruct (py_float a) eqn:Ha; [|intros H; injection H as <-;
                                   exact (py_float_raises a _ Ha)].
  destruct (py_float b) eqn:Hb; [discriminate|].
  intros H; injection H as <-. exact (py_float_raises b _ Hb).
Qed.

Lemma py_float4_raises (t : tuple4) (e : exn) :
  py_float4 t = Raise e -> e = OverflowError.
Proof.
  destruct t as [[[a b] c] d]. simpl.
  destruct (py_float a) eqn:Ha; [|intros H; injection H as <-;
                                   exact (py_float_raises a _ Ha)].
  destruct (py_float b) eqn:Hb; [|intros H; injection H as <-;
                                   exact (py_float_raises b _ Hb)].
  destruct (py_float c) eqn:Hc; [|intros H; injection H as <-;
                                   exact (py_float_raises c _ Hc)].
  destruct (py_float d) eqn:Hd; [discriminate|].
  intros H; injection H as <-. exact (py_float_raises d _ Hd).
Qed.

(** A supplied form always determines a box, or fails in a conversion. *)
Lemma resolve_form_cases (bbox rect : option tuple4)
      (shape pos : option pair2) :
  (bbox = None /\ rect = None /\ shape = None
   /\ resolve_form bbox rect shape pos = Ok None)
  \/ (exists e, resolve_form bbox rect shape pos = Ok (Some e))
  \/ resolve_form bbox rect shape pos = Raise OverflowError.
Proof.
  unfold resolve_form.
  destruct bbox as [t|]; [|destruct rect as [t|]; [|destruct shape as [t|]]].
  - simpl. destruct (py_float4 t) as [e|e] eqn:H; [eauto|].
    rewrite (py_float4_raises t e H). auto.
  - simpl. destruct (py_float4 t) as [[[[x y] w] h]|e] eqn:H; [eauto|].
    rewrite (py_float4_raises t e H). auto.
  - simpl.
    assert (P : (exists c, match pos with
                           | Some p => py_float2 p
                           | None => Ok (0, 0)%float
                           end = Ok c)
                \/ match pos with
                   | Some p => py_float2 p
                   | None => Ok (0, 0)%float
                   end = Raise OverflowError).
    { destruct pos as [p|]; [|eauto].
      destruct (py_float2 p) as [c|e] eqn:H; [eauto|].
      rewrite (py_float2_raises p e H). auto. }
    destruct P as [[[cx cy] P]|P]; rewrite P; [|auto].
    destruct (py_float2 t) as [[w h]|e] eqn:H; [eauto|].
    rewrite (py_float2_raises t e H). auto.
  - auto.
Qed.

(** The resolver raises ConstructionAmbiguityError only when no form is
    supplied and an extent is missing. *)
Lemma aabb_bbox_ambiguity (bbox rect : option tuple4)
      (shape pos : option pair2) (a b c d : option value) :
  aabb_bbox bbox rect shape pos a b c d = Raise ConstructionAmbiguityError ->
  bbox = None /\ rect = None /\ shape = None
  /\ (a = None \/ b = None \/ c = None \/ d = None).
Proof.
  assert (G : forall t : tuple4,
             (e <- py_float4 t ;;
              if inverted e then Raise InvalidGeometryError else ret e)
             <> Raise ConstructionAmbiguityError).
  { intros t. destruct (py_float4 t) as [e|e] eqn:P; simpl.
    - destruct (inverted e); discriminate.
    - rewrite (py_float4_raises t e P). discriminate. }
  destruct (resolve_form_cases bbox rect shape pos)
    as [(-> & -> & -> & F)|[[[[[lo_x hi_x] lo_y] hi_y] F]|F]].
  - rewrite aabb_bbox_extents. intros H. repeat split.
    destruct a, b, c, d; auto. exfalso.
    lazymatch type of H with context [py_float4 ?t] => exact (G t H) end.
  - unfold aabb_bbox. rewrite F.
    cbn [bind Monad_result option_map].
    destruct a, b, c, d; cbn [substitute option_map];
      intros H; exfalso;
      lazymatch type of H with context [py_float4 ?t] => exact (G t H) end.
  - unfold aabb_bbox. rewrite F. discriminate.
Qed.

Lemma LinearRigidBody_init_raises (lo_x hi_x lo_y hi_y : float)
      (pos : float * float) (v : pair2) (m d : option value) (e : exn) :
  LinearRigidBody_init lo_x hi_x lo_y hi_y pos v m d = Raise e ->
  e = OverflowError.
Proof.
  unfold LinearRigidBody_init. simpl.
  destruct (py_float2 v) as [[v_x v_y]|e'] eqn:V;
    [|intros H; injection H as <-; exact (py_float2_raises v _ V)].
  destruct m as [m|].
  - destruct (py_float m) eqn:M; [discriminate|].
    intros H; injection H as <-. exact (py_float_raises m _ M).
  - destruct d as [d|]; [|discriminate].
    destruct (py_float d) eqn:D; [discriminate|].
    intros H; injection H as <-. exact (py_float_raises d _ D).
Qed.

(** C8. When none of [bbox], [rect] and [shape] is supplied and one of the
    four extents is missing, construction raises ConstructionAmbiguityError:
    no body is built and no default is put in place of the missing extent.
    Construction raises it in no other case.  In particular
    [AABB(xmin=0, xmax=100)] raises it. *)
Theorem undetermined_extents_raise :
  (forall kw : kwargs,
      AABB_init kw = Raise ConstructionAmbiguityError
      <-> (kw_bbox kw = None /\ kw_rect kw = None /\ kw_shape kw = None
           /\ (kw_xmin kw = None \/ kw_xmax kw = None
               \/ kw_ymin kw = None \/ kw_ymax kw = None)))
  /\ AABB_init kw_only_x = Raise ConstructionAmbiguityError.
Proof.
  split; [|reflexivity].
  intros kw. split.
  - unfold AABB_init. simpl.
    destruct (aabb_bbox _ _ _ _ _ _ _ _) as [[[[lo_x hi_x] lo_y] hi_y]|e] eqn:B.
    + intros H. apply LinearRigidBody_init_raises in H. discriminate.
    + intros H. injection H as ->. apply aabb_bbox_ambiguity in B. exact B.
  - intros (Hb & Hr & Hs & Hmiss). unfold AABB_init.
    rewrite Hb, Hr, Hs, aabb_bbox_extents.
    destruct Hmiss as [H|[H|[H|H]]]; rewrite H;
      destruct (kw_xmin kw), (kw_xmax kw), (kw_ymin kw), (kw_ymax kw);
      try discriminate; reflexivity.
Qed.

Lemma undetermined_extents_raise_witness :
  (kw_bbox kw_only_x = None /\ kw_rect kw_only_x = None
   /\ kw_shape kw_only_x = None /\ kw_ymin kw_only_x = None)
  /\ AABB_init kw_only_x = Raise ConstructionAmbiguityError.
Proof.
  split; [repeat split|].
  apply (proj1 undetermined_extents_raise kw_only_x).
  repeat split. right. right. left. reflexivity.
Defined.

(** * More on sequences of writes *)



Lemma py_float_converts (v : value) (x : float) :
  py_float v = Ok x -> converts v = true.
Proof.
  destruct v as [z|y]; simpl; [|reflexivity].
  destruct (is_infinity (Z2float z)); [discriminate|reflexivity].
Qed.

Lemma writes_last_write (ws : list (extent * value)) (f : extent) :
  forall self self',
    run (writes ws) self = Ok (tt, self') ->
    match last_write f ws with
    | Some v => py_float v = Ok (stored f self')
    | None => stored f self' = stored f self
    end.
Proof.
  induction ws as [|[g v] ws IH]; intros self self' R.
  - unfold run in R. simpl in R. injection R as R; subst self'. reflexivity.
  - apply writes_cons_inv in R as (mid & R1 & R2).
    specialize (IH mid self' R2). simpl.
    destruct (last_write f ws) as [w|]; [exact IH|].
    destruct (write_inv g v self mid R1) as [x H].
    destruct (write_effect g v x self mid H R1) as (S & _ & F & _).
    destruct (extent_eqb g f) eqn:E.
    + assert (g = f) by (destruct g, f; try discriminate; reflexivity).
      subst g. rewrite IH, S. exact H.
    + rewrite IH. apply F.
      destruct g, f; try discriminate; reflexivity.
Qed.

(** After a sequence of writes, every extent holds the float of the last value
    written to it, and an extent the sequence never wrote holds what it held
    before. *)
Theorem writes_keep_last (ws : list (extent * value)) (self self' : AABB)
        (f : extent) :
  run (writes ws) self = Ok (tt, self') ->
  returned (run (read f) self')
  = match last_write f ws with
    | Some v => py_float v
    | None => returned (run (read f) self)
    end.
Proof.
  intros R. pose proof (writes_last_write ws f self self' R) as K.
  assert (G : forall s, returned (run (read f) s) = Ok (stored f s))
    by (intros s; destruct f; reflexivity).
  rewrite !G. destruct (last_write f ws) as [v|].
  - symmetry. exact K.
  - rewrite K. reflexivity.
Qed.

Lemma writes_keep_last_witness :
  exists self',
    run (writes [(Xmax, VInt 150); (Ymin, VInt 7); (Xmax, VFloat 120.5)])
        body_0_100_0_200 = Ok (tt, self')
    /\ returned (run (read Xmax) self') = Ok 120.5%float
    /\ returned (run (read Xmin) self')
       = returned (run (read Xmin) body_0_100_0_200).
Proof.
  eexists. split; [vm_compute; reflexivity|]. split.
  - exact (writes_keep_last
             [(Xmax, VInt 150); (Ymin, VInt 7); (Xmax, VFloat 120.5)]
             body_0_100_0_200 _ Xmax eq_refl).
  - exact (writes_keep_last
             [(Xmax, VInt 150); (Ymin, VInt 7); (Xmax, VFloat 120.5)]
             body_0_100_0_200 _ Xmin eq_refl).
Defined.

Lemma writes_frame (ws : list (extent * value)) :
  forall self self',
    run (writes ws) self = Ok (tt, self') ->
    vel self' = vel self /\ mass self' = mass self.
Proof.
  induction ws as [|[f v] ws IH]; intros self self' R.
  - unfold run in R. simpl in R. injection R as R; subst self'. split; reflexivity.
  - apply writes_cons_inv in R as (mid & R1 & R2).
    destruct (IH mid self' R2) as [V M]. rewrite V, M.
    destruct (write_inv f v self mid R1) as [x H].
    destruct (write_effect f v x self mid H R1) as (_ & _ & _ & _ & V' & M' & _).
    split; assumption.
Qed.

(** Extent writes never touch the velocity or the mass: after any sequence of
    writes both are what they were, so the mass of a resized body is still
    the mass it had, whatever [area()] has become. *)
Theorem writes_keep_mass_and_velocity (ws : list (extent * value))
        (self self' : AABB) :
  run (writes ws) self = Ok (tt, self') ->
  mass self' = mass self /\ vel self' = vel self.
Proof.
  intros R. destruct (writes_frame ws self self' R) as [V M].
  split; assumption.
Qed.

(** The box [(0, 100, 0, 200)] of mass 20000 is widened to [(0, 150, 0, 200)],
    of area 30000, and still weighs 20000. *)
Lemma writes_keep_mass_and_velocity_witness :
  exists self',
    run (writes [(Xmax, VInt 150)]) body_0_100_0_200 = Ok (tt, self')
    /\ run area self' = Ok (30000%float, self')
    /\ mass self' = mass body_0_100_0_200
    /\ vel self' = vel body_0_100_0_200.
Proof.
  eexists. split; [vm_compute; reflexivity|].
  split; [vm_compute; reflexivity|].
  exact (writes_keep_mass_and_velocity [(Xmax, VInt 150)] body_0_100_0_200 _
                                       eq_refl).
Defined.

Lemma touches_x_last_write (ws : list (extent * value)) :
  touches_x ws
  = match last_write Xmin ws, last_write Xmax ws with
    | None, None => false
    | _, _ => true
    end.
Proof.
  unfold touches_x. induction ws as [|[g v] ws IH]; [reflexivity|].
  simpl. rewrite IH.
  destruct (last_write Xmin ws), (last_write Xmax ws), g; reflexivity.
Qed.

Lemma touches_y_last_write (ws : list (extent * value)) :
  touches_y ws
  = match last_write Ymin ws, last_write Ymax ws with
    | None, None => false
    | _, _ => true
    end.
Proof.
  unfold touches_y. induction ws as [|[g v] ws IH]; [reflexivity|].
  simpl. rewrite IH.
  destruct (last_write Ymin ws), (last_write Ymax ws), g; reflexivity.
Qed.

Lemma AABB_eq (s t : AABB) :
  _xmin s = _xmin t -> _xmax s = _xmax t ->
  _ymin s = _ymin t -> _ymax s = _ymax t ->
  Vector.x (_pos s) = Vector.x (_pos t) ->
  Vector.y (_pos s) = Vector.y (_pos t) ->
  vel s = vel t -> mass s = mass t -> inertia s = inertia t ->
  s = t.
Proof.
  destruct s as [a b c d [px py] v m i], t as [a' b' c' d' [px' py'] v' m' i'].
  simpl. intros. subst. reflexivity.
Qed.

Lemma stored_by_last_write (ws1 ws2 : list (extent * value))
      (self s1 s2 : AABB) (f : extent) :
  last_write f ws1 = last_write f ws2 ->
  run (writes ws1) self = Ok (tt, s1) ->
  run (writes ws2) self = Ok (tt, s2) ->
  stored f s1 = stored f s2.
Proof.
  intros L R1 R2.
  pose proof (writes_last_write ws1 f self s1 R1) as K1.
  pose proof (writes_last_write ws2 f self s2 R2) as K2.
  rewrite L in K1. destruct (last_write f ws2); congruence.
Qed.

(** The body that a sequence of writes leaves is decided by the last value
    written to each extent: two sequences that agree on these, run from the
    same body, end in the same body, in whatever order and however often
    they write. *)
Theorem writes_decided_by_last (ws1 ws2 : list (extent * value))
        (self s1 s2 : AABB) :
  (forall f, last_write f ws1 = last_write f ws2) ->
  run (writes ws1) self = Ok (tt, s1) ->
  run (writes ws2) self = Ok (tt, s2) ->
  s1 = s2.
Proof.
  intros L R1 R2.
  assert (S : forall f, stored f s1 = stored f s2)
    by (intros f; exact (stored_by_last_write ws1 ws2 self s1 s2 f (L f) R1 R2)).
  pose proof (S Xmin) as Sa. pose proof (S Xmax) as Sb.
  pose proof (S Ymin) as Sc. pose proof (S Ymax) as Sd. simpl in Sa, Sb, Sc, Sd.
  destruct (writes_axes ws1 self s1 R1) as [X1 Y1].
  destruct (writes_axes ws2 self s2 R2) as [X2 Y2].
  rewrite touches_x_last_write in X1, X2.
  rewrite touches_y_last_write in Y1, Y2.
  rewrite !L in X1, Y1.
  destruct (writes_frame ws1 self s1 R1) as [V1 M1].
  destruct (writes_frame ws2 self s2 R2) as [V2 M2].
  pose proof (writes_inertia ws1 self s1 R1) as I1.
  pose proof (writes_inertia ws2 self s2 R2) as I2.
  apply AABB_eq; try congruence.
  - destruct (last_write Xmin ws2), (last_write Xmax ws2);
      try (rewrite X1, X2, Sa, Sb; reflexivity).
    destruct X1 as (P1 & _), X2 as (P2 & _). congruence.
  - destruct (last_write Ymin ws2), (last_write Ymax ws2);
      try (rewrite Y1, Y2, Sc, Sd; reflexivity).
    destruct Y1 as (P1 & _), Y2 as (P2 & _). congruence.
Qed.

Lemma writes_decided_by_last_witness :
  let ws1 := [(Xmin, VInt 10); (Ymax, VInt 300); (Xmax, VInt 150);
              (Xmin, VInt 20)] in
  let ws2 := [(Xmax, VFloat 0.5); (Xmax, VInt 150); (Xmin, VInt 20);
              (Ymax, VInt 300)] in
  (forall f, last_write f ws1 = last_write f ws2)
  /\ exists s1 s2,
      run (writes ws1) body_0_100_0_200 = Ok (tt, s1)
      /\ run (writes ws2) body_0_100_0_200 = Ok (tt, s2)
      /\ s1 = s2.
Proof.
  intros ws1 ws2.
  assert (L : forall f, last_write f ws1 = last_write f ws2)
    by (intros f; destruct f; reflexivity).
  split; [exact L|].
  eexists. eexists.
  split; [vm_compute; reflexivity|].
  split; [vm_compute; reflexivity|].
  exact (writes_decided_by_last ws1 ws2 body_0_100_0_200 _ _ L eq_refl eq_refl).
Defined.

(** Reading an extent right after writing it returns the float of the value
    written, and reading any other extent returns what it returned before
    the write; reading changes nothing. *)
Theorem read_after_write (f g : extent) (v : value) (x : float)
        (self : AABB) :
  py_float v = Ok x ->
  returned (run (write f v ;; read g) self)
  = (if extent_eqb g f then Ok x else returned (run (read g) self))
  /\ run (read g) self = Ok (stored g self, self).
Proof.
  intros H. split; [|destruct g; reflexivity].
  destruct f, g; unfold_setters; rewrite H; reflexivity.
Qed.

Lemma read_after_write_witness :
  py_float (VInt 150) = Ok 150%float
  /\ returned (run (write Xmax (VInt 150) ;; read Xmax) body_0_100_0_200)
     = Ok 150%float
  /\ returned (run (write Xmax (VInt 150) ;; read Ymax) body_0_100_0_200)
     = returned (run (read Ymax) body_0_100_0_200).
Proof.
  split; [reflexivity|]. split.
  - exact (proj1 (read_after_write Xmax Xmax (VInt 150) 150%float
                                   body_0_100_0_200 eq_refl)).
  - exact (proj1 (read_after_write Xmax Ymax (VInt 150) 150%float
                                   body_0_100_0_200 eq_refl)).
Defined.

(** Assigning an extent its own value, [self.f = self.f], always succeeds and
    keeps the four extents, but it sets the position on that axis to half
    the span: it leaves the body as it was exactly when the position on that
    axis already is half the span. *)
Theorem self_assignment (f : extent) (self : AABB) :
  exists self',
    run (v <- read f ;; write f (VFloat v)) self = Ok (tt, self')
    /\ box self' = box self
    /\ pos_along f self' = half_span f self
    /\ (self' = self <-> pos_along f self = half_span f self).
Proof.
  destruct self as [a b c d [px py] v m i].
  destruct f; eexists; (split; [unfold_setters; reflexivity|]);
    unfold box, pos_along, half_span; simpl;
    (split; [reflexivity|]); (split; [reflexivity|]);
    (split; [intros H; injection H; congruence | intros ->; reflexivity]).
Qed.

(** * [primitive], composed *)

(** [primitive()] leaves the receiver as it was, and what it returns is a
    fixed point: the primitive of a primitive is that same body.  It has the
    area of the receiver and sits at the midpoint of the box, wherever the
    receiver's position is. *)
Theorem primitive_idempotent (self self' p : AABB) :
  run primitive self = Ok (p, self') ->
  self' = self
  /\ run primitive p = Ok (p, p)
  /\ returned (run area p) = returned (run area self)
  /\ _pos p = midpoint p.
Proof.
  rewrite primitive_run. destruct (inverted (box self)) eqn:I; [discriminate|].
  intros H. injection H as Hp Hs. subst p self'.
  split; [reflexivity|]. split; [|split; reflexivity].
  rewrite primitive_run. unfold box in *. cbn [_xmin _xmax _ymin _ymax].
  rewrite I. reflexivity.
Qed.

Lemma primitive_idempotent_witness :
  exists p,
    run primitive body_0_100_0_200 = Ok (p, body_0_100_0_200)
    /\ run primitive p = Ok (p, p)
    /\ returned (run area p) = returned (run area body_0_100_0_200)
    /\ _pos p = midpoint p.
Proof.
  eexists. split; [vm_compute; reflexivity|].
  exact (proj2 (primitive_idempotent body_0_100_0_200 _ _ eq_refl)).
Defined.

(** * More facts about binary64 arithmetic *)

Module SFSigns.
Local Open Scope Z_scope.

Lemma gtb_zero (z : spec_float) : SFltb (S754_zero false) z = sf_positive z.
Proof. destruct z as [s|s| |s m e]; try destruct s; reflexivity. Qed.

(** Rounding depends on the sign it is given only through the sign of its
    result. *)
Lemma binary_round_aux_opp (s : bool) (m e : Z) (l : location) :
  binary_round_aux prec emax (negb s) m e l
  = SFopp (binary_round_aux prec emax s m e l).
Proof.
  unfold binary_round_aux.
  destruct (shr_fexp prec emax m e l) as [mrs' e'].
  destruct (shr_fexp _ _ _ e' loc_Exact) as [mrs'' e''].
  destruct (shr_m mrs''); [| destruct (e'' <=? emax - prec) |]; reflexivity.
Qed.

Lemma binary_round_opp (s : bool) (m : positive) (e : Z) :
  binary_round prec emax (negb s) m e = SFopp (binary_round prec emax s m e).
Proof.
  unfold binary_round. destruct (shl_align m e _) as [mz ez].
  apply binary_round_aux_opp.
Qed.

Lemma binary_normalize_opp (m e : Z) :
  m <> 0 ->
  binary_normalize prec emax (- m) e false
  = SFopp (binary_normalize prec emax m e false).
Proof.
  destruct m as [|p|p]; [congruence| |]; intros _; simpl.
  - apply (binary_round_opp false).
  - apply (binary_round_opp true).
Qed.

Lemma opp_positive (z : spec_float) : sf_positive (SFopp z) = sf_negative z.
Proof. destruct z as [s|s| |s m e]; try destruct s; reflexivity. Qed.

Lemma abs_opp (z : spec_float) : SFabs (SFopp z) = SFabs z.
Proof. destruct z as [s|s| |s m e]; reflexivity. Qed.

(** Exchanging the operands of a subtraction negates the difference, or
    leaves it a zero, or leaves it NaN. *)
Lemma sub_swap (x y : spec_float) :
  SF64sub y x = SFopp (SF64sub x y)
  \/ (exists s t, SF64sub y x = S754_zero s /\ SF64sub x y = S754_zero t).
Proof.
  destruct x as [sx|sx| |sx mx ex], y as [sy|sy| |sy my ey];
    try destruct sx; try destruct sy;
    try solve [left; reflexivity | right; eexists; eexists; split; reflexivity].
  all: unfold SF64sub, SFsub.
  all: rewrite (Z.min_comm ey ex).
  all: set (ez := Z.min ex ey).
  all: set (a := Z.pos (fst (shl_align mx ex ez))).
  all: set (b := Z.pos (fst (shl_align my ey ez))).
  all: unfold cond_Zopp.
  all: match goal with
       | |- binary_normalize _ _ ?m _ _ = SFopp (binary_normalize _ _ ?n _ _) \/ _ =>
           destruct (Z.eq_dec n 0) as [E|E];
           [ right; replace m with 0 by lia; rewrite E; eexists; eexists;
             split; reflexivity
           | left; replace m with (- n) by lia; apply binary_normalize_opp, E ]
       end.
Qed.

Lemma sf_sub_swap_positive (x y : spec_float) :
  sf_positive (SF64sub y x) = sf_negative (SF64sub x y).
Proof.
  destruct (sub_swap x y) as [H|(s & t & H1 & H2)].
  - rewrite H. apply opp_positive.
  - rewrite H1, H2. reflexivity.
Qed.

Lemma sf_sub_swap_abs (x y : spec_float) :
  SFabs (SF64sub y x) = SFabs (SF64sub x y).
Proof.
  destruct (sub_swap x y) as [H|(s & t & H1 & H2)].
  - rewrite H. apply abs_opp.
  - rewrite H1, H2. reflexivity.
Qed.

Lemma binary_round_aux_positive (s : bool) (m e : Z) (l : location) :
  sf_positive (binary_round_aux prec emax s m e l) = true -> s = false.
Proof.
  unfold binary_round_aux.
  destruct (shr_fexp prec emax m e l) as [mrs' e'].
  destruct (shr_fexp _ _ _ e' loc_Exact) as [mrs'' e''].
  destruct s; [|reflexivity].
  destruct (shr_m mrs''); [| destruct (e'' <=? emax - prec) |];
    simpl; discriminate.
Qed.

Lemma binary_round_aux_negative (s : bool) (m e : Z) (l : location) :
  sf_negative (binary_round_aux prec emax s m e l) = true -> s = true.
Proof.
  unfold binary_round_aux.
  destruct (shr_fexp prec emax m e l) as [mrs' e'].
  destruct (shr_fexp _ _ _ e' loc_Exact) as [mrs'' e''].
  destruct s; [reflexivity|].
  destruct (shr_m mrs''); [| destruct (e'' <=? emax - prec) |];
    simpl; discriminate.
Qed.

(** The sign rule of the product. *)
Lemma sf_mul_negative (x y : spec_float) :
  sf_negative (SF64mul x y) = true ->
  (sf_negative x = true /\ sf_positive y = true)
  \/ (sf_positive x = true /\ sf_negative y = true).
Proof.
  destruct x as [sx|sx| |sx mx ex], y as [sy|sy| |sy my ey];
    try destruct sx; try destruct sy; simpl; try discriminate; auto.
  all: intros H; apply binary_round_aux_negative in H; discriminate.
Qed.

Lemma sf_mul_positive (x y : spec_float) :
  sf_positive (SF64mul x y) = true ->
  (sf_positive x = true /\ sf_positive y = true)
  \/ (sf_negative x = true /\ sf_negative y = true).
Proof.
  destruct x as [sx|sx| |sx mx ex], y as [sy|sy| |sy my ey];
    try destruct sx; try destruct sy; simpl; try discriminate; auto.
  all: intros H; apply binary_round_aux_positive in H; discriminate.
Qed.

Lemma binary_normalize_negative (m e : Z) :
  0 <= m -> sf_negative (binary_normalize prec emax m e false) = false.
Proof.
  intros Hm. destruct m as [|p|p]; simpl; try reflexivity; try lia.
  unfold binary_round.
  destruct (shl_align p e _) as [mz ez].
  destruct (sf_negative _) eqn:E; trivial.
  apply binary_round_aux_negative in E. discriminate.
Qed.

(** A sum of two numbers that are not negative is not negative. *)
Lemma add_sign (x y : spec_float) :
  sf_negative x = false -> sf_negative y = false ->
  sf_negative (SF64add x y) = false.
Proof.
  destruct x as [sx|sx| |sx mx ex], y as [sy|sy| |sy my ey];
    try destruct sx; try destruct sy;
    try solve [simpl; first [reflexivity | discriminate]].
  intros _ _. unfold SF64add, SFadd. apply binary_normalize_negative.
  unfold cond_Zopp. lia.
Qed.

(** A quotient by a positive finite number keeps the sign. *)
Lemma div_sign (x : spec_float) (m : positive) (e : Z) :
  sf_negative x = false ->
  sf_negative (SF64div x (S754_finite false m e)) = false.
Proof.
  destruct x as [sx|sx| |sx mx ex]; try destruct sx; simpl;
    try reflexivity; try discriminate.
  intros _. unfold SF64div, SFdiv.
  destruct (SFdiv_core_binary _ _ _ _ _ _) as [[mz ez] lz].
  destruct (sf_negative _) eqn:E; trivial.
  apply binary_round_aux_negative in E. discriminate.
Qed.
End SFSigns.

Section MoreFloatSigns.
Local Open Scope float_scope.

Lemma gtb_zero_positive (z : float) : (0 <? z) = sf_positive (Prim2SF z).
Proof. rewrite ltb_spec, Prim2SF_zero. apply SFSigns.gtb_zero. Qed.

Lemma sub_swap_positive (x y : float) : (0 <? y - x) = (x - y <? 0).
Proof.
  rewrite gtb_zero_positive, ltb_zero_negative, !sub_spec.
  apply SFSigns.sf_sub_swap_positive.
Qed.

Lemma sub_swap_abs (x y : float) : abs (y - x) = abs (x - y).
Proof.
  apply Prim2SF_inj. rewrite !abs_spec, !sub_spec.
  apply SFSigns.sf_sub_swap_abs.
Qed.

(** When [y <= x], the difference [y - x] is not positive. *)
Lemma sub_not_positive (x y : float) :
  (y <=? x) = true -> (0 <? y - x) = false.
Proof.
  intros H. rewrite sub_swap_positive. apply sub_not_negative, H.
Qed.

Lemma mul_positive (x y : float) :
  (0 <? x * y) = true ->
  ((0 <? x) = true /\ (0 <? y) = true)
  \/ ((x <? 0) = true /\ (y <? 0) = true).
Proof.
  rewrite !gtb_zero_positive, !ltb_zero_negative, mul_spec.
  apply SFSigns.sf_mul_positive.
Qed.

Lemma mul_negative (x y : float) :
  (x * y <? 0) = true ->
  ((x <? 0) = true /\ (0 <? y) = true)
  \/ ((0 <? x) = true /\ (y <? 0) = true).
Proof.
  rewrite !gtb_zero_positive, !ltb_zero_negative, mul_spec.
  apply SFSigns.sf_mul_negative.
Qed.

Lemma add_not_negative (x y : float) :
  (x <? 0) = false -> (y <? 0) = false -> (x + y <? 0) = false.
Proof. rewrite !ltb_zero_negative, add_spec. apply SFSigns.add_sign. Qed.

Lemma div_12_not_negative (x : float) :
  (x <? 0) = false -> (x / 12 <? 0) = false.
Proof.
  rewrite !ltb_zero_negative, div_spec.
  change (Prim2SF 12) with (S754_finite false 6755399441055744 (-49)).
  apply SFSigns.div_sign.
Qed.
End MoreFloatSigns.

(** * The sign of the area of an inverted box *)

(** The setters can leave a box inverted, and [area()] then follows the sign
    rule of the product: with one axis inverted ([xmax <= xmin] and
    [ymin <= ymax], or the other way round) the area is never positive, and
    with both axes inverted it is never negative. *)
Theorem area_of_inverted_box (self : AABB) :
  exists a,
    run area self = Ok (a, self)
    /\ ((_xmax self <=? _xmin self) = true ->
        (_ymin self <=? _ymax self) = true -> (0 <? a) = false)%float
    /\ ((_xmin self <=? _xmax self) = true ->
        (_ymax self <=? _ymin self) = true -> (0 <? a) = false)%float
    /\ ((_xmax self <=? _xmin self) = true ->
        (_ymax self <=? _ymin self) = true -> (a <? 0) = false)%float.
Proof.
  eexists. split; [apply area_run|].
  split; [|split]; intros Hx Hy.
  - pose proof (sub_not_positive _ _ Hx) as Px.
    pose proof (sub_not_negative _ _ Hy) as Ny.
    destruct (0 <? _ * _)%float eqn:E; trivial.
    apply mul_positive in E as [[A _]|[_ B]]; congruence.
  - pose proof (sub_not_negative _ _ Hx) as Nx.
    pose proof (sub_not_positive _ _ Hy) as Py.
    destruct (0 <? _ * _)%float eqn:E; trivial.
    apply mul_positive in E as [[_ B]|[A _]]; congruence.
  - pose proof (sub_not_positive _ _ Hx) as Px.
    pose proof (sub_not_positive _ _ Hy) as Py.
    destruct (_ * _ <? 0)%float eqn:E; trivial.
    apply mul_negative in E as [[_ B]|[A _]]; congruence.
Qed.

(** The box [(150, 100, 0, 200)], inverted by the write [xmin = 150], has
    the area -10000. *)
Lemma area_of_inverted_box_witness :
  ((_xmax body_150_100_0_200 <=? _xmin body_150_100_0_200) = true
   /\ (_ymin body_150_100_0_200 <=? _ymax body_150_100_0_200) = true)%float
  /\ run area body_150_100_0_200 = Ok ((-10000)%float, body_150_100_0_200)
  /\ (0 <? -10000)%float = false.
Proof.
  split; [split; reflexivity|]. split; [reflexivity|].
  destruct (area_of_inverted_box body_150_100_0_200) as (a & R & H & _).
  injection R as R. rewrite R. apply H; reflexivity.
Defined.

(** * [ROG_sqr] *)

Module SFAbs.
Local Open Scope Z_scope.

Lemma eqb_refl (z : spec_float) : SFeqb z z = negb (sf_is_nan z).
Proof.
  destruct z as [s|s| |s m e]; try destruct s; try reflexivity.
  all: unfold SFeqb, SFcompare.
  all: rewrite Z.compare_refl, Pos.compare_cont_spec, Pos.compare_refl.
  all: reflexivity.
Qed.

Lemma sf_abs_is_nan (z : spec_float) : sf_is_nan (SFabs z) = sf_is_nan z.
Proof. destruct z; reflexivity. Qed.

Lemma sf_abs_eqb_zero (z : spec_float) :
  SFeqb (SFabs z) (S754_zero false) = SFeqb z (S754_zero false).
Proof. destruct z as [s|s| |s m e]; try destruct s; reflexivity. Qed.

Lemma sf_abs_abs (z : spec_float) : SFabs (SFabs z) = SFabs z.
Proof. destruct z; reflexivity. Qed.

Lemma sf_abs_not_negative (z : spec_float) : sf_negative (SFabs z) = false.
Proof. destruct z; reflexivity. Qed.

(** The magnitude of a number that is neither NaN nor a zero, as
    [float_pow] takes it: the number negated when it is below zero. *)
Lemma sf_magnitude (z : spec_float) :
  sf_is_nan z = false -> SFeqb z (S754_zero false) = false ->
  (if sf_negative z then SFopp z else z) = SFabs z.
Proof.
  destruct z as [s|s| |s m e]; try destruct s; simpl;
    try reflexivity; try discriminate.
Qed.
End SFAbs.

Section PowerFacts.
Local Open Scope float_scope.
Variable libm_pow : float -> float -> float * bool.

Lemma is_nan_spec (v : float) : is_nan v = sf_is_nan (Prim2SF v).
Proof.
  unfold is_nan. rewrite FloatAxioms.eqb_spec, SFAbs.eqb_refl.
  apply negb_involutive.
Qed.

Lemma abs_is_nan (v : float) : is_nan (abs v) = is_nan v.
Proof. rewrite !is_nan_spec, abs_spec. apply SFAbs.sf_abs_is_nan. Qed.

Lemma abs_eqb_zero (v : float) : (abs v =? 0) = (v =? 0).
Proof.
  rewrite !FloatAxioms.eqb_spec, abs_spec, Prim2SF_zero.
  apply SFAbs.sf_abs_eqb_zero.
Qed.

Lemma abs_abs (v : float) : abs (abs v) = abs v.
Proof. apply Prim2SF_inj. rewrite !abs_spec. apply SFAbs.sf_abs_abs. Qed.

Lemma abs_nan (v : float) : is_nan v = true -> abs v = v.
Proof.
  rewrite is_nan_spec. intros H. apply Prim2SF_inj. rewrite abs_spec.
  destruct (Prim2SF v); try discriminate. reflexivity.
Qed.

Lemma abs_not_negative (v : float) : (abs v <? 0) = false.
Proof. rewrite ltb_zero_negative, abs_spec. apply SFAbs.sf_abs_not_negative. Qed.

Lemma nan_not_negative (v : float) : is_nan v = true -> (v <? 0) = false.
Proof.
  rewrite is_nan_spec, ltb_zero_negative.
  destruct (Prim2SF v); try discriminate. reflexivity.
Qed.

Lemma magnitude (v : float) :
  is_nan v = false -> (v =? 0) = false ->
  (if v <? 0 then - v else v) = abs v.
Proof.
  rewrite is_nan_spec, FloatAxioms.eqb_spec, Prim2SF_zero, ltb_zero_negative.
  intros N Z. apply Prim2SF_inj. rewrite abs_spec.
  rewrite <- (SFAbs.sf_magnitude _ N Z).
  destruct (sf_negative (Prim2SF v)); [apply opp_spec|reflexivity].
Qed.

(** [v ** 2] looks at [v] through its magnitude only. *)
Lemma float_pow_2_abs (v : float) :
  float_pow_2 libm_pow (abs v) = float_pow_2 libm_pow v.
Proof.
  unfold float_pow_2, is_infinity.
  rewrite abs_is_nan, abs_abs, abs_eqb_zero.
  destruct (is_nan v) eqn:N; [rewrite (abs_nan v N); reflexivity|].
  destruct (abs v =? infinity); [reflexivity|].
  destruct (v =? 0) eqn:Z; [reflexivity|].
  rewrite (magnitude v N Z).
  rewrite magnitude, abs_abs; [reflexivity| |].
  - rewrite abs_is_nan. exact N.
  - rewrite abs_eqb_zero. exact Z.
Qed.

Lemma float_pow_2_raises (v : float) (e : exn) :
  float_pow_2 libm_pow v = Raise e -> e = OverflowError.
Proof.
  unfold float_pow_2.
  destruct (is_nan v); [discriminate|].
  destruct (is_infinity v); [discriminate|].
  destruct (v =? 0); [discriminate|].
  destruct (_ =? 1); [discriminate|].
  destruct (libm_pow _ 2) as [ix erange].
  destruct (if erange then _ else _); [congruence|discriminate].
Qed.

Lemma float_pow_2_not_negative (v r : float) :
  (forall x, (fst (libm_pow x 2) <? 0) = false) ->
  float_pow_2 libm_pow v = Ok r -> (r <? 0) = false.
Proof.
  intros Hpow. unfold float_pow_2.
  destruct (is_nan v) eqn:N.
  { intros H; injection H as <-. apply nan_not_negative, N. }
  destruct (is_infinity v).
  { intros H; injection H as <-. apply abs_not_negative. }
  destruct (v =? 0).
  { intros H; injection H as <-. reflexivity. }
  destruct (_ =? 1).
  { intros H; injection H as <-. reflexivity. }
  specialize (Hpow (if v <? 0 then - v else v)).
  destruct (libm_pow _ 2) as [ix erange].
  destruct (if erange then _ else _); [discriminate|].
  intros H; injection H as <-. exact Hpow.
Qed.

Lemma ROG_sqr_run (self : AABB) :
  run (ROG_sqr libm_pow) self
  = match float_pow_2 libm_pow (_xmax self - _xmin self) with
    | Ok a2 =>
        match float_pow_2 libm_pow (_ymax self - _ymin self) with
        | Ok b2 => Ok ((a2 + b2) / 12, self)
        | Raise e => Raise e
        end
    | Raise e => Raise e
    end.
Proof.
  unfold run, ROG_sqr, attr, eval. simpl.
  destruct (float_pow_2 libm_pow (_xmax self - _xmin self)); [|reflexivity].
  destruct (float_pow_2 libm_pow (_ymax self - _ymin self)); reflexivity.
Qed.
End PowerFacts.

(** [ROG_sqr()] leaves the body as it was and raises nothing but
    OverflowError; when the C library's [pow] never returns a negative
    number for the exponent 2, what [ROG_sqr()] returns is never negative,
    for any box, inverted or not. *)
Theorem ROG_sqr_not_negative (libm_pow : float -> float -> float * bool)
        (self : AABB) :
  (forall x, (fst (libm_pow x 2) <? 0)%float = false) ->
  match run (ROG_sqr libm_pow) self with
  | Ok (r, self') => self' = self /\ (r <? 0)%float = false
  | Raise e => e = OverflowError
  end.
Proof.
  intros Hpow. rewrite ROG_sqr_run.
  destruct (float_pow_2 libm_pow (_xmax self - _xmin self)) as [a2|e] eqn:A;
    [|exact (float_pow_2_raises libm_pow _ e A)].
  destruct (float_pow_2 libm_pow (_ymax self - _ymin self)) as [b2|e] eqn:B;
    [|exact (float_pow_2_raises libm_pow _ e B)].
  split; [reflexivity|].
  apply div_12_not_negative, add_not_negative.
  - exact (float_pow_2_not_negative libm_pow _ _ Hpow A).
  - exact (float_pow_2_not_negative libm_pow _ _ Hpow B).
Qed.

Lemma pow_by_product_not_negative (x y : float) :
  (fst (pow_by_product x y) <? 0)%float = false.
Proof.
  unfold pow_by_product. simpl.
  destruct (x * x <? 0)%float eqn:E; trivial.
  apply mul_negative in E as [[A B]|[A B]];
    rewrite gtb_zero_positive in *; rewrite ltb_zero_negative in *;
    destruct (Prim2SF x) as [s|s| |s m e]; try destruct s; discriminate.
Qed.

(** With squaring by one rounded product, the box [(0, 100, 0, 200)] has the
    squared radius of gyration [(100 * 100 + 200 * 200) / 12]. *)
Lemma ROG_sqr_not_negative_witness :
  (forall x, (fst (pow_by_product x 2) <? 0)%float = false)
  /\ run (ROG_sqr pow_by_product) body_0_100_0_200
     = Ok ((50000 / 12)%float, body_0_100_0_200)
  /\ (50000 / 12 <? 0)%float = false.
Proof.
  split; [exact (fun x => pow_by_product_not_negative x 2%float)|].
  split; [vm_compute; reflexivity|].
  exact (proj2 (ROG_sqr_not_negative
                  pow_by_product body_0_100_0_200
                  (fun x => pow_by_product_not_negative x 2%float))).
Defined.

(** [ROG_sqr()] does not see an inversion: the box with [xmin] and [xmax]
    exchanged, and the box with [ymin] and [ymax] exchanged, have the same
    squared radius of gyration as the box itself (or raise as it does),
    whatever the C library's [pow] is. *)
Theorem ROG_sqr_mirror (libm_pow : float -> float -> float * bool)
        (self : AABB) :
  returned (run (ROG_sqr libm_pow) (mirror_x self))
  = returned (run (ROG_sqr libm_pow) self)
  /\ returned (run (ROG_sqr libm_pow) (mirror_y self))
     = returned (run (ROG_sqr libm_pow) self).
Proof.
  rewrite !ROG_sqr_run. unfold mirror_x, mirror_y. simpl.
  rewrite <- (float_pow_2_abs libm_pow (_xmin self - _xmax self)).
  rewrite <- (float_pow_2_abs libm_pow (_ymin self - _ymax self)).
  rewrite (sub_swap_abs (_xmax self) (_xmin self)).
  rewrite (sub_swap_abs (_ymax self) (_ymin self)).
  rewrite !float_pow_2_abs.
  split.
  - destruct (float_pow_2 libm_pow (_xmax self - _xmin self)); [|reflexivity].
    destruct (float_pow_2 libm_pow (_ymax self - _ymin self)); reflexivity.
  - destruct (float_pow_2 libm_pow (_xmax self - _xmin self)); [|reflexivity].
    destruct (float_pow_2 libm_pow (_ymax self - _ymin self)); reflexivity.
Qed.
